(** * Gift-card platform: ledger, commission settlement and gateway services

    A shallow embedding of the services documented in
    [docs/modules/payments.md] (gift-card create / recharge / use, customer
    registration, commission charging, webhook processing and the two
    background jobs), of the request validators, and of the HTTP exception
    handler of [app/exceptions].

    Conventions of the embedding:
    - a database table is the list of its rows in insertion order; the serial
      primary key of the row at position [i] is [S i]; rows are never deleted;
    - a JavaScript [number] holding money or a percentage is an exact
      rational ([Q]); [<] and [===] are the boolean tests [num_lt], [num_eq].
      The arithmetic of the services is kept as the expressions the code
      writes, evaluated in the order the code evaluates them, and the
      theorems state amounts and balances through those expressions, their
      sign and their comparison with zero; none regroups a sum or a product,
      which binary floating point would not honour;
    - an [async] method is a computation in the monad [M]: it threads the
      [World] (database, gateway, notifications) and may throw;
    - every database write and every call to an external collaborator may be
      rejected: it consults the next entry of the [faults] script of the
      world ([true] = this call throws); an empty script means every call
      succeeds. *)

From Stdlib Require Import QArith Qround ZArith String List Lia DecimalString DecimalNat.
From stdpp Require Import base list strings gmap.

Open Scope string_scope.

(** ** JavaScript numbers and strings *)

Definition num_lt (x y : Q) : bool := negb (Qle_bool y x).
Definition num_eq (x y : Q) : bool := Qeq_bool x y.

(** Template-literal rendering [`${n}`] of an integer id. *)
Definition show (n : nat) : string := NilEmpty.string_of_uint (Nat.to_uint n).

(** Truthiness of a possibly-missing string ([if (s)], [s || t]). *)
Definition truthy (s : option string) : bool :=
  match s with
  | Some v => negb (String.eqb v "")
  | None => false
  end.

(** ** Exceptions ([app/exceptions]) *)

Inductive Exn :=
| BaseException (message : string) (status : nat) (code : string)
| ValidationFailure                 (* vine, code E_VALIDATION_FAILURE *)
| AuthorizationFailure              (* bouncer, code E_AUTHORIZATION_FAILURE *)
| Error (message : string).         (* plain [Error], rejected writes and calls *)

Definition BadRequestException (message : string) : Exn :=
  BaseException message 400 "E_BAD_REQUEST".
Definition NotFoundException (message : string) : Exn :=
  BaseException message 404 "E_NOT_FOUND".
Definition UnauthorizedException (message : string) : Exn :=
  BaseException message 401 "E_UNAUTHORIZED".

Inductive Json :=
| JString (s : string)
| JNumber (q : Q)
| JInt (n : nat).

Record HttpResponse := mkResponse {
  responseStatus : nat;
  responseBody : list (string * Json)
}.

(** [BaseException.toJSON] *)
Definition toJSON (message : string) (status : nat) (code : string)
  : list (string * Json) :=
  [("code", JString code); ("message", JString message); ("status", JInt status)].

(** [HttpExceptionHandler.handle]; the last branch is the framework default. *)
Definition HttpExceptionHandler_handle (error : Exn) : HttpResponse :=
  match error with
  | BaseException message status code =>
      mkResponse status (toJSON message status code)
  | ValidationFailure =>
      mkResponse 422 [("code", JString "E_VALIDATION_FAILURE");
                      ("message", JString "Validation failed")]
  | AuthorizationFailure =>
      mkResponse 403 [("code", JString "E_AUTHORIZATION_FAILURE");
                      ("message", JString "Access denied")]
  | Error message =>
      mkResponse 500 [("message", JString message)]
  end.

Definition hasField (key : string) (body : list (string * Json)) : bool :=
  existsb (fun kv => String.eqb (fst kv) key) body.

(** ** Data model *)

Module Franchisee.
Record t := mk {
  id : nat;
  companyName : string;
  commissionRate : Q            (* percentage, 5.0 = 5% *)
}.
End Franchisee.

Module Establishment.
Record Address := mkAddress {
  street : string; number : string; complement : string;
  neighborhood : string; city : string; state : string; zipCode : string
}.
Record User := mkUser { email : string; phone : string }.
Record t := mk {
  id : nat;
  franchiseeId : nat;
  name : string;
  cnpj : string;
  address : Address;
  user : User;                  (* preloaded relation *)
  asaasCustomerId : option string
}.
(** [establishmentRepository.update(id, { asaasCustomerId })] *)
Definition setAsaasCustomerId (v : string) (e : t) : t :=
  mk (id e) (franchiseeId e) (name e) (cnpj e) (address e) (user e) (Some v).
End Establishment.

Module GiftCard.
Inductive Status := active | used | expired | cancelled.
Record t := mk {
  id : nat;
  code : string;
  qrCode : string;
  franchiseeId : nat;
  establishmentId : nat;
  initialValue : Q;
  currentBalance : Q;
  status : Status;
  validUntil : option nat
}.
(** [Partial<GiftCard>] as the services build it. *)
Record Partial := mkPartial {
  setCurrentBalance : option Q;
  setStatus : option Status
}.
(** [{ ...giftCard, ...updates }] *)
Definition merge (updates : Partial) (c : t) : t :=
  mk (id c) (code c) (qrCode c) (franchiseeId c) (establishmentId c)
     (initialValue c)
     (default (currentBalance c) (setCurrentBalance updates))
     (default (status c) (setStatus updates))
     (validUntil c).
End GiftCard.

Module Transaction.
Inductive Kind := recharge | usage | refund.
Record t := mk {
  id : nat;
  giftCardId : nat;
  establishmentId : nat;
  type : Kind;
  amount : Q;
  balanceBefore : Q;
  balanceAfter : Q;
  description : option string
}.
End Transaction.

Module Commission.
Inductive Status := pending | charged | paid | failed.
Record t := mk {
  id : nat;
  franchiseeId : nat;
  establishmentId : nat;
  transactionId : nat;
  amount : Q;
  rate : Q;
  status : Status;
  asaasChargeId : option string;
  paymentMethod : option string;
  paidAt : option string
}.
Record Partial := mkPartial {
  setAsaasChargeId : option string;
  setPaymentMethod : option string;
  setStatus : option Status;
  setPaidAt : option string
}.
Definition merge (updates : Partial) (c : t) : t :=
  mk (id c) (franchiseeId c) (establishmentId c) (transactionId c)
     (amount c) (rate c)
     (default (status c) (setStatus updates))
     (match setAsaasChargeId updates with Some v => Some v | None => asaasChargeId c end)
     (match setPaymentMethod updates with Some v => Some v | None => paymentMethod c end)
     (match setPaidAt updates with Some v => Some v | None => paidAt c end).
End Commission.

(** ** Gateway payloads ([asaas.interface.ts]) *)

(** A value read from a JavaScript object: an own string property, a member
    inherited from [Object.prototype], or [undefined]. *)
Inductive JsValue :=
| JsString (s : string)
| JsInherited (name : string)
| JsUndefined.

Record CreditCard := mkCreditCard {
  holderName : string; cardNumber : string;
  expiryMonth : string; expiryYear : string; ccv : string
}.

Record CreateCustomerData := mkCustomerData {
  cdName : string; cdEmail : string; cdCpfCnpj : string; cdPhone : string;
  cdAddress : string; cdAddressNumber : string; cdComplement : string;
  cdProvince : string; cdCity : string; cdState : string; cdPostalCode : string
}.

Record CreateChargeData := mkChargeData {
  customer : string;
  billingType : JsValue;
  value : Q;
  dueDate : string;
  chargeDescription : string;
  externalReference : string;
  creditCard : option CreditCard
}.

Record AsaasCharge := mkCharge { chargeId : string; chargeData : CreateChargeData }.

Record AsaasPayment := mkPayment {
  paymentId : string;
  paymentExternalReference : string;
  confirmedDate : option string;
  clientPaymentDate : option string
}.

Record AsaasWebhookData := mkWebhookData { event : string; payment : AsaasPayment }.

Module Webhook.
Record t := mk {
  id : nat;
  payload : AsaasWebhookData;
  processedAt : option nat
}.
Definition setProcessedAt (now : nat) (h : t) : t := mk (id h) (payload h) (Some now).
End Webhook.

Inductive Notification :=
| PaymentConfirmation (commissionId : nat)
| OverdueNotification (commissionId : nat).

(** ** The world: database, gateway, notifications, failure script *)

Record World := mkWorld {
  franchisees : list Franchisee.t;
  establishments : list Establishment.t;
  giftCards : list GiftCard.t;
  transactions : list Transaction.t;
  commissions : list Commission.t;
  webhooks : list Webhook.t;
  asaasCustomers : list CreateCustomerData;
  asaasCharges : list CreateChargeData;
  notifications : list Notification;
  faults : list bool
}.

Definition with_establishments (v : list Establishment.t) (w : World) : World :=
  mkWorld (franchisees w) v (giftCards w) (transactions w) (commissions w)
          (webhooks w) (asaasCustomers w) (asaasCharges w) (notifications w) (faults w).
Definition with_giftCards (v : list GiftCard.t) (w : World) : World :=
  mkWorld (franchisees w) (establishments w) v (transactions w) (commissions w)
          (webhooks w) (asaasCustomers w) (asaasCharges w) (notifications w) (faults w).
Definition with_transactions (v : list Transaction.t) (w : World) : World :=
  mkWorld (franchisees w) (establishments w) (giftCards w) v (commissions w)
          (webhooks w) (asaasCustomers w) (asaasCharges w) (notifications w) (faults w).
Definition with_commissions (v : list Commission.t) (w : World) : World :=
  mkWorld (franchisees w) (establishments w) (giftCards w) (transactions w) v
          (webhooks w) (asaasCustomers w) (asaasCharges w) (notifications w) (faults w).
Definition with_webhooks (v : list Webhook.t) (w : World) : World :=
  mkWorld (franchisees w) (establishments w) (giftCards w) (transactions w)
          (commissions w) v (asaasCustomers w) (asaasCharges w) (notifications w) (faults w).
Definition with_asaasCustomers (v : list CreateCustomerData) (w : World) : World :=
  mkWorld (franchisees w) (establishments w) (giftCards w) (transactions w)
          (commissions w) (webhooks w) v (asaasCharges w) (notifications w) (faults w).
Definition with_asaasCharges (v : list CreateChargeData) (w : World) : World :=
  mkWorld (franchisees w) (establishments w) (giftCards w) (transactions w)
          (commissions w) (webhooks w) (asaasCustomers w) v (notifications w) (faults w).
Definition with_notifications (v : list Notification) (w : World) : World :=
  mkWorld (franchisees w) (establishments w) (giftCards w) (transactions w)
          (commissions w) (webhooks w) (asaasCustomers w) (asaasCharges w) v (faults w).
Definition with_faults (v : list bool) (w : World) : World :=
  mkWorld (franchisees w) (establishments w) (giftCards w) (transactions w)
          (commissions w) (webhooks w) (asaasCustomers w) (asaasCharges w)
          (notifications w) v.

(** ** The monad of asynchronous service methods *)

Inductive Outcome (A : Type) :=
| Ok (a : A)
| Throw (e : Exn).
Arguments Ok {A} a.
Arguments Throw {A} e.

Definition M (A : Type) : Type := World -> Outcome A * World.

Definition ret {A} (a : A) : M A := fun w => (Ok a, w).
Definition throw {A} (e : Exn) : M A := fun w => (Throw e, w).
Definition bind {A B} (m : M A) (k : A -> M B) : M B :=
  fun w => match m w with
           | (Ok a, w') => k a w'
           | (Throw e, w') => (Throw e, w')
           end.
Definition get : M World := fun w => (Ok w, w).
Definition modify (f : World -> World) : M unit := fun w => (Ok tt, f w).

(** [try { body } catch (error) { handler(error) }] *)
Definition tryCatch {A} (body : M A) (handler : Exn -> M A) : M A :=
  fun w => match body w with
           | (Ok a, w') => (Ok a, w')
           | (Throw e, w') => handler e w'
           end.

Notation "'let!' x ':=' m 'in' k" := (bind m (fun x => k))
  (at level 10, x name, m at level 100, k at level 200).
Notation "'do!' m 'in' k" := (bind m (fun _ => k))
  (at level 10, m at level 100, k at level 200).

(** One write or external call: consumes the next entry of the script. *)
Definition attempt (what : string) : M unit :=
  fun w => match faults w with
           | [] => (Ok tt, w)
           | false :: rest => (Ok tt, with_faults rest w)
           | true :: rest => (Throw (Error what), with_faults rest w)
           end.

(** ** Repositories *)

Definition findRow {A} (rows : list A) (id : nat) : option A :=
  match id with
  | O => None
  | S i => rows !! i
  end.

Definition nextId {A} (rows : list A) : nat := S (length rows).

(** [repository.update(id, patch)]: rejected when the row does not exist. *)
Definition updateRow {A} (f : A -> A) (id : nat) (rows : list A) : option (list A) :=
  match findRow rows id with
  | Some _ => Some (alter f (pred id) rows)
  | None => None
  end.

Definition giftCardRepository_update (id : nat) (updates : GiftCard.Partial) : M unit :=
  do! attempt "gift_cards update" in
  let! w := get in
  match updateRow (GiftCard.merge updates) id (giftCards w) with
  | Some rows => modify (with_giftCards rows)
  | None => throw (Error "gift_cards: row not found")
  end.

Definition commissionRepository_update (id : nat) (updates : Commission.Partial) : M unit :=
  do! attempt "commissions update" in
  let! w := get in
  match updateRow (Commission.merge updates) id (commissions w) with
  | Some rows => modify (with_commissions rows)
  | None => throw (Error "commissions: row not found")
  end.

Definition establishmentRepository_update (id : nat) (asaasCustomerId : string) : M unit :=
  do! attempt "establishments update" in
  let! w := get in
  match updateRow (Establishment.setAsaasCustomerId asaasCustomerId) id (establishments w) with
  | Some rows => modify (with_establishments rows)
  | None => throw (Error "establishments: row not found")
  end.

Definition webhookRepository_update (id : nat) (processedAt : nat) : M unit :=
  do! attempt "payment_webhooks update" in
  let! w := get in
  match updateRow (Webhook.setProcessedAt processedAt) id (webhooks w) with
  | Some rows => modify (with_webhooks rows)
  | None => throw (Error "payment_webhooks: row not found")
  end.

(** ** Request payloads of the gift-card endpoints *)

Module CreateGiftCardData.
Record t := mk {
  franchiseeId : nat;
  establishmentId : nat;
  initialValue : Q;
  validUntil : option nat
}.
End CreateGiftCardData.

Module RechargeData.
Record t := mk {
  giftCardId : option nat;
  code : option string;
  establishmentId : nat;
  amount : Q;
  description : option string
}.
End RechargeData.

Module UseData.
Record t := mk {
  giftCardId : option nat;
  code : option string;
  establishmentId : nat;
  amount : Q;
  description : option string
}.
End UseData.

(** ** [GiftCardValidator] *)

(** [vine.number().min(lo).max(hi)] *)
Definition inRange (lo hi x : Q) : bool := Qle_bool lo x && Qle_bool x hi.

(** [.exists(table, 'id')] *)
Definition rowExists {A} (rows : list A) (id : nat) : bool :=
  match findRow rows id with Some _ => true | None => false end.

Definition optional {A} (check : A -> bool) (field : option A) : bool :=
  match field with Some v => check v | None => true end.

Definition createSchema (now : nat) (w : World) (d : CreateGiftCardData.t) : bool :=
  rowExists (franchisees w) (CreateGiftCardData.franchiseeId d)
  && rowExists (establishments w) (CreateGiftCardData.establishmentId d)
  && inRange 1 10000 (CreateGiftCardData.initialValue d)
  && optional (fun v => now <? v)%nat (CreateGiftCardData.validUntil d).

Definition rechargeSchema (w : World) (d : RechargeData.t) : bool :=
  optional (rowExists (giftCards w)) (RechargeData.giftCardId d)
  && optional (fun s => String.length s =? 21)%nat (RechargeData.code d)
  && rowExists (establishments w) (RechargeData.establishmentId d)
  && inRange 1 10000 (RechargeData.amount d)
  && optional (fun s => String.length s <=? 255)%nat (RechargeData.description d).

Definition useSchema (w : World) (d : UseData.t) : bool :=
  optional (rowExists (giftCards w)) (UseData.giftCardId d)
  && optional (fun s => String.length s =? 21)%nat (UseData.code d)
  && rowExists (establishments w) (UseData.establishmentId d)
  && inRange (1 # 100) 10000 (UseData.amount d)
  && optional (fun s => String.length s <=? 255)%nat (UseData.description d).

(** [request.validateUsing(schema)] *)
Definition validateUsing {A} (schema : World -> A -> bool) (d : A) : M unit :=
  let! w := get in
  if schema w d then ret tt else throw ValidationFailure.

(** ** Gift-card services *)

Record RechargeResult := mkRechargeResult {
  rr_transaction : Transaction.t;
  rr_giftCard : GiftCard.t;
  rr_commission : Commission.t
}.

Record UseResult := mkUseResult {
  ur_transaction : Transaction.t;
  ur_giftCard : GiftCard.t
}.

(** The argument [data.giftCardId || data.code] of [validateGiftCard]. *)
Inductive CardKey :=
| ById (id : nat)
| ByCode (code : string)
| NoKey.

Definition idOrCode (giftCardId : option nat) (code : option string) : CardKey :=
  match giftCardId with
  | Some (S n) => ById (S n)
  | _ => match code with
         | Some s => ByCode s
         | None => NoKey
         end
  end.

Definition resolveCard (w : World) (key : CardKey) : option GiftCard.t :=
  match key with
  | ById id => findRow (giftCards w) id
  | ByCode c => List.find (fun g => String.eqb (GiftCard.code g) c) (giftCards w)
  | NoKey => None
  end.

(** Modelled from the spec: [transactionService.create] is not among the
    documented sources; a transaction row is "created exactly once per
    balance-affecting operation" with the fields it is handed. *)
Definition transactionService_create
  (giftCardId establishmentId : nat) (type : Transaction.Kind)
  (amount balanceBefore balanceAfter : Q) (description : option string)
  : M Transaction.t :=
  do! attempt "transactions insert" in
  let! w := get in
  let row := Transaction.mk (nextId (transactions w)) giftCardId establishmentId
                            type amount balanceBefore balanceAfter description in
  do! modify (with_transactions (transactions w ++ [row])) in
  ret row.

(** Modelled from the spec: [commissionService.create] is not among the
    documented sources; a commission is "created synchronously with the
    recharge transaction, in pending", without charge reference, payment
    method or paid-at timestamp. *)
Definition commissionService_create
  (franchiseeId establishmentId transactionId : nat) (amount rate : Q)
  : M Commission.t :=
  do! attempt "commissions insert" in
  let! w := get in
  let row := Commission.mk (nextId (commissions w)) franchiseeId establishmentId
                           transactionId amount rate Commission.pending
                           None None None in
  do! modify (with_commissions (commissions w ++ [row])) in
  ret row.

Section GiftCardServices.

(** [QRCode.toBuffer(code, ...).toString('base64')], an external library. *)
Variable qrCodeBase64 : string -> string.

(** The status and expiry checks of [validateGiftCard]: the helper is not
    among the documented sources, so the services are verified for every
    policy ([Some e] rejects the card with [e]). *)
Variable cardPolicy : nat -> GiftCard.t -> option Exn.

(** Modelled from the spec: [validateGiftCard] resolves the card "by id or
    code", fails with a not-found error for an unknown reference and
    applies the status / expiry policy to the stored card. *)
Definition validateGiftCard (now : nat) (key : CardKey) : M GiftCard.t :=
  let! w := get in
  match resolveCard w key with
  | None => throw (NotFoundException "Gift card not found")
  | Some giftCard =>
      match cardPolicy now giftCard with
      | Some e => throw e
      | None => ret giftCard
      end
  end.

(** Modelled from the spec: [validateFranchiseeEstablishment] checks that
    "the establishment must belong to that franchise". *)
Definition validateFranchiseeEstablishment (franchiseeId establishmentId : nat)
  : M unit :=
  let! w := get in
  match findRow (establishments w) establishmentId with
  | Some e =>
      if (Establishment.franchiseeId e =? franchiseeId)%nat then ret tt
      else throw (BaseException "Establishment does not belong to franchisee"
                                422 "E_VALIDATION")
  | None => throw (NotFoundException "Establishment not found")
  end.

(** [generateUniqueCode]; [id] is the 16-character draw of [nanoid()]. *)
Definition generateUniqueCode (id : string) : string :=
  "GC-" ++ substring 0 4 id ++ "-" ++ substring 4 4 id ++ "-"
        ++ substring 8 4 id ++ "-" ++ substring 12 4 id.

(** [QrCodeService.generateQrCode] *)
Definition generateQrCode (code : string) : string :=
  "data:image/png;base64," ++ qrCodeBase64 code.

(** [CreateGiftCardService.execute] *)
Definition CreateGiftCardService_execute
  (nanoid : string) (data : CreateGiftCardData.t) : M GiftCard.t :=
  do! validateFranchiseeEstablishment (CreateGiftCardData.franchiseeId data)
                                      (CreateGiftCardData.establishmentId data) in
  let code := generateUniqueCode nanoid in
  let qrCode := generateQrCode code in
  do! attempt "gift_cards insert" in
  let! w := get in
  let giftCard :=
    GiftCard.mk (nextId (giftCards w)) code qrCode
                (CreateGiftCardData.franchiseeId data)
                (CreateGiftCardData.establishmentId data)
                (CreateGiftCardData.initialValue data)
                (CreateGiftCardData.initialValue data)
                GiftCard.active
                (CreateGiftCardData.validUntil data) in
  do! modify (with_giftCards (giftCards w ++ [giftCard])) in
  ret giftCard.

(** [RechargeGiftCardService.execute].  [giftCard.franchisee] is the
    relation loaded together with the card.  The new balance and the
    commission amount are the expressions [balanceBefore + data.amount] and
    [data.amount * (commissionRate / 100)], grouped as the code groups
    them. *)
Definition RechargeGiftCardService_execute
  (now : nat) (data : RechargeData.t) : M RechargeResult :=
  let! loaded := get in
  let! giftCard :=
    validateGiftCard now (idOrCode (RechargeData.giftCardId data)
                                   (RechargeData.code data)) in
  let balanceBefore := GiftCard.currentBalance giftCard in
  let balanceAfter := (balanceBefore + RechargeData.amount data)%Q in
  let! transaction :=
    transactionService_create (GiftCard.id giftCard)
      (RechargeData.establishmentId data) Transaction.recharge
      (RechargeData.amount data) balanceBefore balanceAfter
      (RechargeData.description data) in
  do! giftCardRepository_update (GiftCard.id giftCard)
        (GiftCard.mkPartial (Some balanceAfter) None) in
  match findRow (franchisees loaded) (GiftCard.franchiseeId giftCard) with
  | None => throw (Error "TypeError: giftCard.franchisee is undefined")
  | Some franchisee =>
      let! commission :=
        commissionService_create (GiftCard.franchiseeId giftCard)
          (RechargeData.establishmentId data) (Transaction.id transaction)
          (RechargeData.amount data * (Franchisee.commissionRate franchisee / 100))%Q
          (Franchisee.commissionRate franchisee) in
      ret (mkRechargeResult transaction giftCard commission)
  end.

(** [UseGiftCardService.execute]; the new balance is the expression
    [balanceBefore - data.amount] of the code. *)
Definition UseGiftCardService_execute
  (now : nat) (data : UseData.t) : M UseResult :=
  let! giftCard :=
    validateGiftCard now (idOrCode (UseData.giftCardId data)
                                   (UseData.code data)) in
  if num_lt (GiftCard.currentBalance giftCard) (UseData.amount data)
  then throw (BadRequestException "Insufficient balance")
  else
    let balanceBefore := GiftCard.currentBalance giftCard in
    let balanceAfter := (balanceBefore - UseData.amount data)%Q in
    let! transaction :=
      transactionService_create (GiftCard.id giftCard)
        (UseData.establishmentId data) Transaction.usage
        (UseData.amount data) balanceBefore balanceAfter
        (UseData.description data) in
    let updates :=
      GiftCard.mkPartial (Some balanceAfter)
        (if num_eq balanceAfter 0 then Some GiftCard.used else None) in
    do! giftCardRepository_update (GiftCard.id giftCard) updates in
    ret (mkUseResult transaction (GiftCard.merge updates giftCard)).

(** *** Endpoints: validator, then service

    Modelled from the spec: the controller actions are not among the
    documented sources; each validates the body with its schema and calls
    the service. *)
Inductive Request :=
| CreateGiftCard (now : nat) (nanoid : string) (data : CreateGiftCardData.t)
| Recharge (now : nat) (data : RechargeData.t)
| Use (now : nat) (data : UseData.t).

Definition handleRequest (r : Request) : M unit :=
  match r with
  | CreateGiftCard now nanoid data =>
      do! validateUsing (createSchema now) data in
      do! CreateGiftCardService_execute nanoid data in ret tt
  | Recharge now data =>
      do! validateUsing rechargeSchema data in
      do! RechargeGiftCardService_execute now data in ret tt
  | Use now data =>
      do! validateUsing useSchema data in
      do! UseGiftCardService_execute now data in ret tt
  end.

(** Serving a sequence of requests one after the other; a rejected request
    leaves whatever it had already written. *)
Definition serve (rs : list Request) (w : World) : World :=
  fold_left (fun w r => snd (handleRequest r w)) rs w.

End GiftCardServices.

(** The world before any card is issued. *)
Definition initialWorld (fs : list Franchisee.t) (es : list Establishment.t)
  (script : list bool) : World :=
  mkWorld fs es [] [] [] [] [] [] [] script.

(** Modelled from the spec: the policy of [validateGiftCard] as the spec
    words it ("verifies status is active, verifies validUntil (if set) has
    not passed"); used for the concrete runs below. *)
Definition activePolicy (now : nat) (c : GiftCard.t) : option Exn :=
  match GiftCard.status c with
  | GiftCard.active =>
      match GiftCard.validUntil c with
      | Some t => if (t <? now)%nat
                  then Some (BaseException "Gift card expired" 422 "E_INVALID_OPERATION")
                  else None
      | None => None
      end
  | _ => Some (BaseException "Gift card is not active" 422 "E_INVALID_OPERATION")
  end.

(** ** Asaas client

    The gateway is an external collaborator: a call is recorded in the world
    and answered with a serially numbered reference, or rejected by the
    failure script. *)

Definition asaasClient_createCustomer (data : CreateCustomerData) : M string :=
  do! attempt "asaas createCustomer" in
  let! w := get in
  let id := "cus_" ++ show (nextId (asaasCustomers w)) in
  do! modify (with_asaasCustomers (asaasCustomers w ++ [data])) in
  ret id.

Definition asaasClient_createCharge (data : CreateChargeData) : M AsaasCharge :=
  do! attempt "asaas createCharge" in
  let! w := get in
  let id := "pay_" ++ show (nextId (asaasCharges w)) in
  do! modify (with_asaasCharges (asaasCharges w ++ [data])) in
  ret (mkCharge id data).

Definition notificationService_send (n : Notification) : M unit :=
  do! attempt "notification" in
  let! w := get in
  modify (with_notifications (notifications w ++ [n])).

(** ** [CreateCustomerService] *)

Definition CreateCustomerService_execute (establishment : Establishment.t) : M string :=
  if truthy (Establishment.asaasCustomerId establishment)
  then ret (default "" (Establishment.asaasCustomerId establishment))
  else
    let customerData :=
      mkCustomerData
        (Establishment.name establishment)
        (Establishment.email (Establishment.user establishment))
        (Establishment.cnpj establishment)
        (Establishment.phone (Establishment.user establishment))
        (Establishment.street (Establishment.address establishment))
        (Establishment.number (Establishment.address establishment))
        (Establishment.complement (Establishment.address establishment))
        (Establishment.neighborhood (Establishment.address establishment))
        (Establishment.city (Establishment.address establishment))
        (Establishment.state (Establishment.address establishment))
        (Establishment.zipCode (Establishment.address establishment)) in
    let! customerId := asaasClient_createCustomer customerData in
    do! establishmentRepository_update (Establishment.id establishment) customerId in
    ret customerId.

(** Modelled from the spec: [customerService.ensureCustomer] is called by the
    charge service but not documented; the spec has the charge made "against
    the establishment's registered customer record (creating that customer
    record first if absent)", which is what [execute] does. *)
Definition ensureCustomer (establishment : Establishment.t) : M string :=
  CreateCustomerService_execute establishment.

(** ** [CreateCommissionChargeService] *)

(** Property names every object literal inherits from [Object.prototype];
    all of them are truthy (functions, or the prototype object itself). *)
Definition Object_prototype : list string :=
  ["constructor"; "hasOwnProperty"; "isPrototypeOf"; "propertyIsEnumerable";
   "toLocaleString"; "toString"; "valueOf"; "__proto__";
   "__defineGetter__"; "__defineSetter__"; "__lookupGetter__"; "__lookupSetter__"].

(** [object[key]] for an object literal with string-valued own properties. *)
Definition getProperty (own : gmap string string) (key : string) : JsValue :=
  match own !! key with
  | Some v => JsString v
  | None => if existsb (String.eqb key) Object_prototype
            then JsInherited key
            else JsUndefined
  end.

Definition isTruthy (v : JsValue) : bool :=
  match v with
  | JsString s => negb (String.eqb s "")
  | JsInherited _ => true
  | JsUndefined => false
  end.

Definition mapping : gmap string string :=
  <["ticket" := "BOLETO"]> (<["pix" := "PIX"]> (<["credit_card" := "CREDIT_CARD"]> ∅)).

(** [mapPaymentMethod]: [mapping[method] || 'PIX'] *)
Definition mapPaymentMethod (method : string) : JsValue :=
  let found := getProperty mapping method in
  if isTruthy found then found else JsString "PIX".

(** [ChargeCommissionData]; [commission.establishment] is the relation loaded
    with the commission. *)
Record ChargeCommissionData := mkChargeCommissionData {
  cc_commission : Commission.t;
  cc_establishment : Establishment.t;
  cc_paymentMethod : string;
  cc_dueDate : nat;
  cc_creditCard : option CreditCard
}.

Record CommissionChargeJobData := mkChargeJobData {
  job_commissionId : nat;
  job_paymentMethod : string;
  job_dueDate : nat;
  job_creditCard : option CreditCard
}.

(** [DateTime.fromISO(text)], kept as the text it was built from. *)
Definition fromISO (text : option string) : string := default "Invalid DateTime" text.

Section AsaasServices.

(** [format(dueDate, 'yyyy-MM-dd')] of date-fns, an external library. *)
Variable format : nat -> string.

Definition CreateCommissionChargeService_execute (data : ChargeCommissionData)
  : M AsaasCharge :=
  let commission := cc_commission data in
  let paymentMethod := cc_paymentMethod data in
  let! customerId := ensureCustomer (cc_establishment data) in
  let chargeData :=
    mkChargeData customerId
                 (mapPaymentMethod paymentMethod)
                 (Commission.amount commission)
                 (format (cc_dueDate data))
                 ("Commission payment - " ++ show (Commission.id commission))
                 ("commission_" ++ show (Commission.id commission))
                 (if String.eqb paymentMethod "credit_card"
                  then cc_creditCard data else None) in
  let! charge := asaasClient_createCharge chargeData in
  do! commissionRepository_update (Commission.id commission)
        (Commission.mkPartial (Some (chargeId charge)) (Some paymentMethod)
                              (Some Commission.charged) None) in
  ret charge.

(** [commissionRepository.findWithRelations]: the commission and the
    establishment its foreign key points to. *)
Definition findWithRelations (w : World) (commissionId : nat)
  : option (Commission.t * Establishment.t) :=
  match findRow (commissions w) commissionId with
  | Some c =>
      match findRow (establishments w) (Commission.establishmentId c) with
      | Some e => Some (c, e)
      | None => None
      end
  | None => None
  end.

(** [CommissionChargeJob.handle] *)
Definition CommissionChargeJob_handle (job : CommissionChargeJobData) : M unit :=
  let commissionId := job_commissionId job in
  tryCatch
    (let! w := get in
     match findWithRelations w commissionId with
     | None => throw (Error ("Commission " ++ show commissionId ++ " not found"))
     | Some (commission, establishment) =>
         do! CreateCommissionChargeService_execute
               (mkChargeCommissionData commission establishment
                  (job_paymentMethod job) (job_dueDate job) (job_creditCard job)) in
         ret tt
     end)
    (fun error =>
       do! commissionRepository_update commissionId
             (Commission.mkPartial None None (Some Commission.failed) None) in
       throw error).

End AsaasServices.

(** ** [ProcessWebhookService] *)

(** Modelled from the spec: [findCommissionByPayment] is not documented; the
    spec looks a commission up "by gateway charge reference or by an
    externally-supplied correlation token", the token being the
    [externalReference] the charge was created with. *)
Definition matchesPayment (payment : AsaasPayment) (c : Commission.t) : bool :=
  String.eqb (paymentExternalReference payment)
             ("commission_" ++ show (Commission.id c))
  || match Commission.asaasChargeId c with
     | Some ref => String.eqb ref (paymentId payment)
     | None => false
     end.

Definition findCommissionByPayment (payment : AsaasPayment) : M (option Commission.t) :=
  let! w := get in
  ret (List.find (matchesPayment payment) (commissions w)).

(** The patch of [handlePaymentSuccess]:
    [{ status: 'paid', paidAt: DateTime.fromISO(confirmedDate || clientPaymentDate) }] *)
Definition paidPatch (payment : AsaasPayment) : Commission.Partial :=
  Commission.mkPartial None None (Some Commission.paid)
    (Some (fromISO (if truthy (confirmedDate payment)
                    then confirmedDate payment
                    else clientPaymentDate payment))).

Definition handlePaymentSuccess (commission : Commission.t) (payment : AsaasPayment)
  : M unit :=
  do! commissionRepository_update (Commission.id commission) (paidPatch payment) in
  notificationService_send (PaymentConfirmation (Commission.id commission)).

Definition handlePaymentOverdue (commission : Commission.t) (payment : AsaasPayment)
  : M unit :=
  notificationService_send (OverdueNotification (Commission.id commission)).

(** Modelled from the spec: [handlePaymentCancellation] is called but not
    documented; "deletion/refund kinds: transition to failed regardless of
    current status, provided it is not already paid". *)
Definition handlePaymentCancellation (commission : Commission.t) (payment : AsaasPayment)
  : M unit :=
  match Commission.status commission with
  | Commission.paid => ret tt
  | _ => commissionRepository_update (Commission.id commission)
           (Commission.mkPartial None None (Some Commission.failed) None)
  end.

Definition isOneOf (s : string) (options : list string) : bool :=
  existsb (String.eqb s) options.

Definition ProcessWebhookService_execute (webhookData : AsaasWebhookData) : M unit :=
  let payment := payment webhookData in
  let! found := findCommissionByPayment payment in
  match found with
  | None => ret tt
  | Some commission =>
      if isOneOf (event webhookData) ["PAYMENT_CONFIRMED"; "PAYMENT_RECEIVED"]
      then handlePaymentSuccess commission payment
      else if isOneOf (event webhookData) ["PAYMENT_OVERDUE"]
      then handlePaymentOverdue commission payment
      else if isOneOf (event webhookData) ["PAYMENT_DELETED"; "PAYMENT_REFUNDED"]
      then handlePaymentCancellation commission payment
      else ret tt
  end.

(** [ProcessWebhookJob.handle]; [now] is [DateTime.now()]. *)
Definition ProcessWebhookJob_handle (now : nat) (webhookId : nat) : M unit :=
  tryCatch
    (let! w := get in
     match findRow (webhooks w) webhookId with
     | None => ret tt
     | Some webhook =>
         match Webhook.processedAt webhook with
         | Some _ => ret tt
         | None =>
             do! ProcessWebhookService_execute (Webhook.payload webhook) in
             webhookRepository_update webhookId now
         end
     end)
    (fun error => throw error).

(** ** Settlement operations, as one type *)

Inductive SettlementOp :=
| RequestCharge (data : ChargeCommissionData)
| RunChargeJob (job : CommissionChargeJobData)
| DeliverWebhook (data : AsaasWebhookData)
| RunWebhookJob (now webhookId : nat).

Definition settle (format : nat -> string) (op : SettlementOp) : M unit :=
  match op with
  | RequestCharge data =>
      do! CreateCommissionChargeService_execute format data in ret tt
  | RunChargeJob job => CommissionChargeJob_handle format job
  | DeliverWebhook data => ProcessWebhookService_execute data
  | RunWebhookJob now webhookId => ProcessWebhookJob_handle now webhookId
  end.

(** ** Properties the specification names *)


(** The transactions of one card, in creation order. *)
Definition historyOf (txs : list Transaction.t) (giftCardId : nat)
  : list Transaction.t :=
  List.filter (fun t => Nat.eqb (Transaction.giftCardId t) giftCardId) txs.

Definition history (w : World) (giftCardId : nat) : list Transaction.t :=
  historyOf (transactions w) giftCardId.

Definition arithmeticOk (t : Transaction.t) : Prop :=
  match Transaction.type t with
  | Transaction.recharge =>
      Transaction.balanceAfter t = (Transaction.balanceBefore t + Transaction.amount t)%Q
  | Transaction.usage =>
      Transaction.balanceAfter t = (Transaction.balanceBefore t - Transaction.amount t)%Q
  | Transaction.refund => True
  end.

(** The transaction chain, in the words of the specification. *)
Definition transactionChain (h : list Transaction.t) (currentBalance : Q) : Prop :=
  (forall i t t', h !! i = Some t -> h !! S i = Some t' ->
                  Transaction.balanceAfter t = Transaction.balanceBefore t')
  /\ (forall t, last h = Some t -> Transaction.balanceAfter t = currentBalance)
  /\ Forall arithmeticOk h.

(** The same chain, anchored at the balance the card was created with. *)
Fixpoint ledger (start : Q) (h : list Transaction.t) (final : Q) : Prop :=
  match h with
  | [] => start = final
  | t :: rest =>
      Transaction.balanceBefore t = start /\ arithmeticOk t
      /\ ledger (Transaction.balanceAfter t) rest final
  end.

(** Consistency of the card table with the transaction log. *)
Record Ledgered (cards : list GiftCard.t) (txs : list Transaction.t) : Prop :=
  mkLedgered {
    cardLedger : forall i c, cards !! i = Some c ->
      GiftCard.id c = S i
      /\ ledger (GiftCard.initialValue c) (historyOf txs (S i))
                (GiftCard.currentBalance c);
    knownCards : Forall (fun t => (Transaction.giftCardId t <= length cards)%nat) txs
  }.

(** A consistent world in which no call is scripted to fail. *)
Definition Consistent (w : World) : Prop :=
  faults w = [] /\ Ledgered (giftCards w) (transactions w).

(** [round] of the commission-derivation property: to the nearest integer
    ([Math.round]) and to the nearest cent. *)
Definition round (q : Q) : Q := inject_Z (Qfloor (q + (1 # 2))).
Definition roundCents (q : Q) : Q := Qfloor (q * 100 + (1 # 2)) # 100.

(** The commission state machine of the specification. *)
Definition allowedTransition (from to : Commission.Status) : bool :=
  match from, to with
  | Commission.pending, Commission.charged => true
  | Commission.pending, Commission.failed => true
  | Commission.charged, Commission.paid => true
  | Commission.charged, Commission.failed => true
  | Commission.failed, Commission.charged => true
  | _, _ => false
  end.

(** Guards the specification puts on the two entry points. *)
Definition chargeable (s : Commission.Status) : bool :=
  match s with
  | Commission.pending | Commission.failed => true
  | _ => false
  end.

Definition statusOf (w : World) (commissionId : nat) : option Commission.Status :=
  Commission.status <$> findRow (commissions w) commissionId.

Definition isConfirmation (data : AsaasWebhookData) : bool :=
  isOneOf (event data) ["PAYMENT_CONFIRMED"; "PAYMENT_RECEIVED"].

(** ** Concrete data for the scenarios *)

Definition demoQr (code : string) : string := "iVBORw0KGgoAAAANSUhEUgAA".
Definition demoFormat (date : nat) : string := "2025-01-15".

Definition demoAddress : Establishment.Address :=
  Establishment.mkAddress "Business Avenue" "123" "Suite 100" "Business District"
                          "Sao Paulo" "SP" "01234-567".
Definition demoUser : Establishment.User :=
  Establishment.mkUser "salon@abc.com" "+5511999990000".

Definition demoFranchisee (rate : Q) : Franchisee.t :=
  Franchisee.mk 1 "Franchise ABC" rate.
Definition demoEstablishment (asaasCustomerId : option string) : Establishment.t :=
  Establishment.mk 1 1 "Salon ABC" "12.345.678/0001-90" demoAddress demoUser
                   asaasCustomerId.

Definition demoWorld (rate : Q) (script : list bool) : World :=
  initialWorld [demoFranchisee rate] [demoEstablishment None] script.

Definition demoCreate (initialValue : Q) : CreateGiftCardData.t :=
  CreateGiftCardData.mk 1 1 initialValue None.
Definition demoRecharge (amount : Q) : RechargeData.t :=
  RechargeData.mk (Some 1%nat) None 1 amount (Some "Account recharge").
Definition demoUse (amount : Q) : UseData.t :=
  UseData.mk (Some 1%nat) None 1 amount (Some "Service payment").

(** A world holding one issued card of value [initialValue]. *)
Definition issued (rate initialValue : Q) (script : list bool) : World :=
  with_faults script
    (snd (CreateGiftCardService_execute demoQr "ABCDEFGHIJKLMNOP"
            (demoCreate initialValue) (demoWorld rate []))).

(** A world holding one commission in the given status. *)
Definition demoCommission (status : Commission.Status) : Commission.t :=
  Commission.mk 1 1 1 1 (5 # 2) 5 status
                (match status with
                 | Commission.pending => None
                 | _ => Some "pay_1"
                 end)
                (match status with
                 | Commission.pending => None
                 | _ => Some "pix"
                 end)
                (match status with
                 | Commission.paid => Some "2025-01-10"
                 | _ => None
                 end).

Definition settlementWorld (status : Commission.Status) (script : list bool) : World :=
  mkWorld [demoFranchisee 5] [demoEstablishment (Some "cus_1")] [] []
          [demoCommission status] [] [] [] [] script.

Definition demoPayment : AsaasPayment :=
  mkPayment "pay_1" "commission_1" (Some "2025-01-12") None.
Definition demoConfirmation : AsaasWebhookData :=
  mkWebhookData "PAYMENT_CONFIRMED" demoPayment.

Definition demoChargeRequest (status : Commission.Status) (method : string)
  : ChargeCommissionData :=
  mkChargeCommissionData (demoCommission status) (demoEstablishment (Some "cus_1"))
                         method 15 None.

Definition succeeded {A} (o : Outcome A) : bool :=
  match o with
  | Ok _ => true
  | Throw _ => false
  end.

Definition thrown {A} (o : Outcome A) : option Exn :=
  match o with
  | Ok _ => None
  | Throw e => Some e
  end.

(** ** Assertions about service methods *)

(** [hoare P m Q E]: run from a world satisfying [P], the method either
    returns [a] in a world satisfying [Q a] or throws in a world satisfying
    [E]. *)
Definition hoare {A} (P : World -> Prop) (m : M A)
  (Q : A -> World -> Prop) (E : World -> Prop) : Prop :=
  forall w, P w ->
    match m w with
    | (Ok a, w') => Q a w'
    | (Throw _, w') => E w'
    end.

(** [leaves field m]: the method never changes that part of the world. *)
Definition leaves {A B} (field : World -> B) (m : M A) : Prop :=
  forall w, field (snd (m w)) = field w.

(** [invariant I m]: the assertion holds after [m], returned or thrown. *)
Definition invariant {A} (I : World -> Prop) (m : M A) : Prop :=
  hoare I m (fun _ => I) I.

(** A commission patch that does not write the status [pending]. *)
Definition forwardPatch (updates : Commission.Partial) : Prop :=
  Commission.setStatus updates <> Some Commission.pending.

(** A table assertion that survives every forward patch of any row. *)
Definition forwardStable (I : list Commission.t -> Prop) : Prop :=
  forall updates rows j, forwardPatch updates -> I rows ->
                         I (alter (Commission.merge updates) j rows).

(** A commission at row [i] that has left [pending]. *)
Definition leftPending (i : nat) (rows : list Commission.t) : Prop :=
  exists c, rows !! i = Some c /\ Commission.status c <> Commission.pending.

(** A card at row [i] marked as used. *)
Definition markedUsed (i : nat) (rows : list GiftCard.t) : Prop :=
  exists c, rows !! i = Some c /\ GiftCard.status c = GiftCard.used.

(** ** Further parts of the documented modules *)

(** [appendsOne field fresh m]: the method leaves the rows of that table as
    they are and adds at most one row, which satisfies [fresh]. *)
Definition appendsOne {A B} (field : World -> list B) (fresh : B -> Prop)
  (m : M A) : Prop :=
  forall w, exists suffix,
    field (snd (m w)) = (field w ++ suffix)%list
    /\ (length suffix <= 1)%nat /\ Forall fresh suffix.

(** The 16 characters of [nanoid()] read back from a card code. *)
Definition codeId (code : string) : string :=
  substring 3 4 code ++ substring 8 4 code ++ substring 13 4 code
  ++ substring 18 4 code.

(** The columns of a card that no balance operation writes. *)
Definition sameIdentity (c c' : GiftCard.t) : Prop :=
  GiftCard.id c' = GiftCard.id c
  /\ GiftCard.code c' = GiftCard.code c
  /\ GiftCard.qrCode c' = GiftCard.qrCode c
  /\ GiftCard.franchiseeId c' = GiftCard.franchiseeId c
  /\ GiftCard.establishmentId c' = GiftCard.establishmentId c
  /\ GiftCard.initialValue c' = GiftCard.initialValue c
  /\ GiftCard.validUntil c' = GiftCard.validUntil c.

Definition keepsIdentity (i : nat) (c : GiftCard.t) (rows : list GiftCard.t) : Prop :=
  exists c', rows !! i = Some c' /\ sameIdentity c c'.

(** A transaction as the two services write it. *)
Definition balanceMove (t : Transaction.t) : Prop :=
  arithmeticOk t /\ Transaction.type t <> Transaction.refund.

(** The balance after one transaction, computed from the balance before it
    with the operation the service performs for that kind. *)
Definition applyTransaction (balance : Q) (t : Transaction.t) : Q :=
  match Transaction.type t with
  | Transaction.recharge => (balance + Transaction.amount t)%Q
  | Transaction.usage => (balance - Transaction.amount t)%Q
  | Transaction.refund => balance
  end.

(** Replaying a history from a starting balance, one transaction after the
    other in creation order. *)
Definition replay (start : Q) (h : list Transaction.t) : Q :=
  fold_left applyTransaction h start.

(** A commission as the recharge service creates it. *)
Definition freshCommission (c : Commission.t) : Prop :=
  Commission.status c = Commission.pending
  /\ Commission.asaasChargeId c = None
  /\ Commission.paymentMethod c = None
  /\ Commission.paidAt c = None.

(** The [customerData] object of [CreateCustomerService.execute]. *)
Definition customerDataOf (establishment : Establishment.t) : CreateCustomerData :=
  mkCustomerData
    (Establishment.name establishment)
    (Establishment.email (Establishment.user establishment))
    (Establishment.cnpj establishment)
    (Establishment.phone (Establishment.user establishment))
    (Establishment.street (Establishment.address establishment))
    (Establishment.number (Establishment.address establishment))
    (Establishment.complement (Establishment.address establishment))
    (Establishment.neighborhood (Establishment.address establishment))
    (Establishment.city (Establishment.address establishment))
    (Establishment.state (Establishment.address establishment))
    (Establishment.zipCode (Establishment.address establishment)).

(** The [chargeData] object of [CreateCommissionChargeService.execute]. *)
Definition chargeDataOf (format : nat -> string) (customerId : string)
  (data : ChargeCommissionData) : CreateChargeData :=
  mkChargeData customerId
               (mapPaymentMethod (cc_paymentMethod data))
               (Commission.amount (cc_commission data))
               (format (cc_dueDate data))
               ("Commission payment - " ++ show (Commission.id (cc_commission data)))
               ("commission_" ++ show (Commission.id (cc_commission data)))
               (if String.eqb (cc_paymentMethod data) "credit_card"
                then cc_creditCard data else None).

(** The patches of the charge service and of the charge job. *)
Definition chargedPatch (charge : AsaasCharge) (paymentMethod : string)
  : Commission.Partial :=
  Commission.mkPartial (Some (chargeId charge)) (Some paymentMethod)
                       (Some Commission.charged) None.

Definition failedPatch : Commission.Partial :=
  Commission.mkPartial None None (Some Commission.failed) None.

(** Rows whose primary key is their position, as the database assigns it. *)
Definition keyed {A} (key : A -> nat) (rows : list A) : Prop :=
  forall i x, rows !! i = Some x -> key x = S i.

(** The event kinds [ProcessWebhookService.execute] has a case for. *)
Definition handledEvents : list string :=
  ["PAYMENT_CONFIRMED"; "PAYMENT_RECEIVED"; "PAYMENT_OVERDUE";
   "PAYMENT_DELETED"; "PAYMENT_REFUNDED"].

(** [AsaasWebhookEvent], the event kinds the gateway sends. *)
Definition AsaasWebhookEvent : list string :=
  ["PAYMENT_CREATED"; "PAYMENT_AWAITING_PAYMENT"; "PAYMENT_CONFIRMED";
   "PAYMENT_RECEIVED"; "PAYMENT_CREDIT_CARD_CAPTURE_REFUSED";
   "PAYMENT_AWAITING_CHARGEBACK_REVERSAL"; "PAYMENT_DUNNING_RECEIVED";
   "PAYMENT_DUNNING_REQUESTED"; "PAYMENT_BANK_SLIP_VIEWED";
   "PAYMENT_CHECKOUT_VIEWED"; "PAYMENT_OVERDUE"; "PAYMENT_DELETED";
   "PAYMENT_RESTORED"; "PAYMENT_REFUNDED"; "PAYMENT_RECEIVED_IN_CASH_UNDONE";
   "PAYMENT_CHARGEBACK_REQUESTED"; "PAYMENT_CHARGEBACK_DISPUTE";
   "PAYMENT_AWAITING_CHARGEBACK_REVERSAL"; "PAYMENT_CHARGEBACK_REVERSED";
   "PAYMENT_CHARGEBACK_SETTLED"].

(** ** [AsaasClientService] and [config/asaas.ts] *)

(** The process environment read by [Env.get]. *)
Definition Env_get (env : gmap string string) (key : string) : option string :=
  env !! key.

Definition Env_get_or (env : gmap string string) (key fallback : string) : string :=
  default fallback (env !! key).

Definition productionUrl : string := "https://www.asaas.com/api/v3".
Definition sandboxUrl : string := "https://sandbox.asaas.com/api/v3".

Module AsaasClient.
(** The private fields; [None] is a field not assigned yet. *)
Record t := mk {
  baseUrl : option string;
  apiKey : option string;
  environment : option string
}.

(** The constructor, one assignment after the other. *)
Definition new (env : gmap string string) : t :=
  let this := mk None None None in
  let this :=
    mk (Some (match environment this with
              | Some e => if String.eqb e "production" then productionUrl else sandboxUrl
              | None => sandboxUrl
              end))
       (apiKey this) (environment this) in
  let this := mk (baseUrl this) (Env_get env "ASAAS_API_KEY") (environment this) in
  mk (baseUrl this) (apiKey this) (Some (Env_get_or env "ASAAS_ENVIRONMENT" "sandbox")).
End AsaasClient.

Module AsaasConfig.
Record t := mk {
  apiKey : option string;
  environment : string;
  webhookSecret : option string;
  baseUrl : string;
  webhookUrl : string
}.

(** The object exported by [config/asaas.ts]. *)
Definition load (env : gmap string string) : t :=
  mk (Env_get env "ASAAS_API_KEY")
     (Env_get_or env "ASAAS_ENVIRONMENT" "sandbox")
     (Env_get env "ASAAS_WEBHOOK_SECRET")
     (match Env_get env "ASAAS_ENVIRONMENT" with
      | Some e => if String.eqb e "production" then productionUrl else sandboxUrl
      | None => sandboxUrl
      end)
     (Env_get_or env "WEBHOOK_BASE_URL" "undefined" ++ "/webhooks/asaas").
End AsaasConfig.

(** ** [WebhookValidator] *)

(** [crypto.timingSafeEqual] on the bytes of two strings: it throws when the
    two buffers differ in length. *)
Definition timingSafeEqual (a b : string) : Outcome bool :=
  if (String.length a =? String.length b)%nat
  then Ok (String.eqb a b)
  else Throw (Error "RangeError: Input buffers must have the same byte length").

(** [validateSignature]; [hmacSha256 secret payload] is the hex digest of
    [crypto.createHmac('sha256', secret).update(payload)], which rejects a
    missing key. *)
Definition WebhookValidator_validateSignature
  (hmacSha256 : string -> string -> string) (env : gmap string string)
  (payload signature : string) : Outcome bool :=
  match Env_get env "ASAAS_WEBHOOK_SECRET" with
  | None => Throw (Error "TypeError: The key argument must be of type string")
  | Some secret =>
      let expectedSignature := hmacSha256 secret payload in
      timingSafeEqual signature expectedSignature
  end.

(** ** Exception classes with their optional code, and [report] *)

(** [code || Class.code] *)
Definition codeOr (code : option string) (classCode : string) : string :=
  if truthy code then default classCode code else classCode.

Definition newBadRequestException (message : string) (code : option string) : Exn :=
  BaseException message 400 (codeOr code "E_BAD_REQUEST").
Definition newNotFoundException (message : string) (code : option string) : Exn :=
  BaseException message 404 (codeOr code "E_NOT_FOUND").
Definition newUnauthorizedException (message : string) (code : option string) : Exn :=
  BaseException message 401 (codeOr code "E_UNAUTHORIZED").

(** [HttpExceptionHandler.report]: [true] when the error is passed on to the
    framework's reporter. *)
Definition HttpExceptionHandler_report (error : Exn) : bool :=
  match error with
  | BaseException _ status _ =>
      negb ((400 <=? status)%nat && (status <? 500)%nat)
  | _ => true
  end.


(** A world holding one charged commission and its unprocessed confirmation. *)
Definition webhookWorld (script : list bool) : World :=
  with_webhooks [Webhook.mk 1 demoConfirmation None]
                (settlementWorld Commission.charged script).

(** A process environment that selects production. *)
Definition productionEnv : gmap string string :=
  <["ASAAS_ENVIRONMENT" := "production"]>
    (<["ASAAS_API_KEY" := "key"]> (<["ASAAS_WEBHOOK_SECRET" := "secret"]> ∅)).

(** A stand-in digest for the concrete runs. *)
Definition demoHmac (secret payload : string) : string := secret ++ ":" ++ payload.

(** * Theorems *)

(** ** Rules of the assertion logic *)

Lemma hoare_ret {A} (a : A) P Q E :
  (forall w, P w -> Q a w) -> hoare P (ret a) Q E.
Proof. intros H w Hw. cbn. auto. Qed.

Lemma hoare_throw {A} e P (Q : A -> World -> Prop) E :
  (forall w, P w -> E w) -> hoare P (throw e) Q E.
Proof. intros H w Hw. cbn. auto. Qed.

Lemma hoare_bind {A B} (m : M A) (k : A -> M B) P R Q E :
  hoare P m R E -> (forall a, hoare (R a) (k a) Q E) -> hoare P (bind m k) Q E.
Proof.
  intros Hm Hk w Hw. unfold bind. specialize (Hm w Hw).
  destruct (m w) as [[a|e] w']; [exact (Hk a w' Hm) | exact Hm].
Qed.

Lemma hoare_weaken {A} (m : M A) (P P' : World -> Prop) (Q Q' : A -> World -> Prop)
  (E E' : World -> Prop) :
  hoare P' m Q' E' ->
  (forall w, P w -> P' w) -> (forall a w, Q' a w -> Q a w) -> (forall w, E' w -> E w) ->
  hoare P m Q E.
Proof.
  intros H HP HQ HE w Hw. specialize (H w (HP w Hw)).
  destruct (m w) as [[a|e] w']; auto.
Qed.

Lemma hoare_pure {A} (m : M A) (P : World -> Prop) (fact : Prop) Q E :
  (fact -> hoare P m Q E) -> hoare (fun w => P w /\ fact) m Q E.
Proof. intros H w [Hw Hf]. exact (H Hf w Hw). Qed.

Lemma hoare_get P E : hoare P get (fun a w => a = w /\ P w) E.
Proof. intros w Hw. cbn. auto. Qed.

Lemma hoare_modify f P E :
  hoare P (modify f) (fun _ w' => exists w, P w /\ w' = f w) E.
Proof. intros w Hw. cbn. eauto. Qed.

Lemma hoare_tryCatch {A} (body : M A) handler P Q E' E :
  hoare P body Q E' -> (forall e, hoare E' (handler e) Q E) ->
  hoare P (tryCatch body handler) Q E.
Proof.
  intros Hb Hh w Hw. unfold tryCatch. specialize (Hb w Hw).
  destruct (body w) as [[a|e] w']; [exact Hb | exact (Hh e w' Hb)].
Qed.

Lemma with_faults_same w : with_faults (faults w) w = w.
Proof. destruct w; reflexivity. Qed.

Lemma attempt_cases what w :
  (faults w = [] /\ attempt what w = (Ok tt, w))
  \/ (exists rest, faults w = false :: rest /\ attempt what w = (Ok tt, with_faults rest w))
  \/ (exists rest, faults w = true :: rest
                   /\ attempt what w = (Throw (Error what), with_faults rest w)).
Proof.
  unfold attempt. destruct (faults w) as [|[] rest]; eauto.
Qed.

(** A script-blind assertion survives every attempt. *)
Lemma hoare_attempt what (P : World -> Prop) :
  (forall w script, P w -> P (with_faults script w)) ->
  hoare P (attempt what) (fun _ => P) P.
Proof.
  intros Hblind w Hw.
  destruct (attempt_cases what w) as [[_ ->]|[[rest [_ ->]]|[rest [_ ->]]]]; auto.
Qed.

(** With an empty script an attempt is a no-op. *)
Lemma hoare_attempt_ok what (P : World -> Prop) E :
  (forall w, P w -> faults w = []) ->
  hoare P (attempt what) (fun _ => P) E.
Proof.
  intros Hnone w Hw.
  destruct (attempt_cases what w) as [[_ ->]|[[rest [H _]]|[rest [H _]]]]; auto;
    rewrite (Hnone w Hw) in H; discriminate.
Qed.

(** ** Rows and tables *)

Lemma findRow_Some {A} (rows : list A) id x :
  findRow rows id = Some x -> exists i, id = S i /\ rows !! i = Some x.
Proof. destruct id as [|i]; [discriminate | eauto]. Qed.

Lemma updateRow_Some {A} (f : A -> A) id rows rows' :
  updateRow f id rows = Some rows' ->
  exists i x, id = S i /\ rows !! i = Some x /\ rows' = alter f i rows.
Proof.
  unfold updateRow. destruct (findRow rows id) as [x|] eqn:Hx; [|discriminate].
  intros [= <-]. apply findRow_Some in Hx as [i [-> Hi]]. exists i, x. auto.
Qed.

Lemma find_lookup {A} (p : A -> bool) (rows : list A) x :
  List.find p rows = Some x -> exists i, rows !! i = Some x.
Proof.
  induction rows as [|y rows IH]; [discriminate|]. cbn.
  destruct (p y).
  - intros [= ->]. exists 0%nat. reflexivity.
  - intros H. destruct (IH H) as [i Hi]. exists (S i). exact Hi.
Qed.

Lemma resolveCard_lookup w key c :
  resolveCard w key = Some c -> exists i, giftCards w !! i = Some c.
Proof.
  destruct key as [id|code|]; cbn; [| apply find_lookup | discriminate].
  intros H. apply findRow_Some in H as [i [_ Hi]]. eauto.
Qed.

(** ** Frame rules *)

Lemma leaves_ret {A B} (field : World -> B) (a : A) : leaves field (ret a).
Proof. intros w. reflexivity. Qed.

Lemma leaves_throw {A B} (field : World -> B) e : leaves field (@throw A e).
Proof. intros w. reflexivity. Qed.

Lemma leaves_get {B} (field : World -> B) : leaves field get.
Proof. intros w. reflexivity. Qed.

Lemma leaves_bind {A C B} (field : World -> B) (m : M A) (k : A -> M C) :
  leaves field m -> (forall a, leaves field (k a)) -> leaves field (bind m k).
Proof.
  intros Hm Hk w. unfold bind. specialize (Hm w).
  destruct (m w) as [[a|e] w']; cbn in *; [|exact Hm].
  rewrite <- Hm. apply Hk.
Qed.

Lemma leaves_tryCatch {A B} (field : World -> B) (body : M A) handler :
  leaves field body -> (forall e, leaves field (handler e)) ->
  leaves field (tryCatch body handler).
Proof.
  intros Hb Hh w. unfold tryCatch. specialize (Hb w).
  destruct (body w) as [[a|e] w']; cbn in *; [exact Hb|].
  rewrite <- Hb. apply Hh.
Qed.

Lemma leaves_modify {B} (field : World -> B) f :
  (forall w, field (f w) = field w) -> leaves field (modify f).
Proof. intros H w. apply H. Qed.

Lemma leaves_attempt {B} (field : World -> B) what :
  (forall script w, field (with_faults script w) = field w) ->
  leaves field (attempt what).
Proof.
  intros H w.
  destruct (attempt_cases what w) as [[_ ->]|[[rest [_ ->]]|[rest [_ ->]]]];
    cbn; auto.
Qed.

Lemma hoare_leaves {A B} (field : World -> B) (m : M A) (I : B -> Prop) :
  leaves field m ->
  hoare (fun w => I (field w)) m (fun _ w => I (field w)) (fun w => I (field w)).
Proof.
  intros H w Hw. specialize (H w).
  destruct (m w) as [[a|e] w']; cbn in H; rewrite H; exact Hw.
Qed.

Ltac frame :=
  repeat lazymatch goal with
    | |- leaves _ (bind _ _) => apply leaves_bind; [|intros]
    | |- leaves _ (tryCatch _ _) => apply leaves_tryCatch; [|intros]
    | |- leaves _ (ret _) => apply leaves_ret
    | |- leaves _ (throw _) => apply leaves_throw
    | |- leaves _ get => apply leaves_get
    | |- leaves _ (attempt _) => apply leaves_attempt; reflexivity
    | |- leaves _ (modify _) => apply leaves_modify; reflexivity
    | |- leaves _ (if ?x then _ else _) => destruct x
    | |- leaves _ (match ?x with _ => _ end) => destruct x
    end.

Lemma transactionService_create_leaves_cards g e k a b1 b2 d :
  leaves giftCards (transactionService_create g e k a b1 b2 d).
Proof. unfold transactionService_create. frame. Qed.

Lemma commissionService_create_leaves_cards f e t a r :
  leaves giftCards (commissionService_create f e t a r).
Proof. unfold commissionService_create. frame. Qed.

Lemma validateUsing_spec {A} (schema : World -> A -> bool) d (P : World -> Prop) :
  hoare P (validateUsing schema d) (fun _ w => P w /\ schema w d = true) P.
Proof.
  intros w Hw. unfold validateUsing, bind, get.
  destruct (schema w d) eqn:Hs; cbn; auto.
Qed.

Lemma validateGiftCard_spec policy now key (P : World -> Prop) :
  hoare P (validateGiftCard policy now key)
        (fun c w => P w /\ resolveCard w key = Some c /\ policy now c = None) P.
Proof.
  intros w Hw. unfold validateGiftCard, bind, get.
  destruct (resolveCard w key) as [c|] eqn:Hr; cbn; auto.
  destruct (policy now c) eqn:Hp; cbn; auto.
Qed.

Lemma validateFranchiseeEstablishment_spec f e (P : World -> Prop) :
  hoare P (validateFranchiseeEstablishment f e) (fun _ => P) P.
Proof.
  intros w Hw. unfold validateFranchiseeEstablishment, bind, get.
  destruct (findRow (establishments w) e) as [x|]; cbn; auto.
  destruct (Establishment.franchiseeId x =? f)%nat; cbn; auto.
Qed.

(** A table assertion stable under the patch survives the update. *)
Lemma giftCardRepository_update_spec id updates (I J : list GiftCard.t -> Prop) :
  (forall g, J g -> I g) ->
  (forall g j, J g -> I (alter (GiftCard.merge updates) j g)) ->
  hoare (fun w => J (giftCards w)) (giftCardRepository_update id updates)
        (fun _ w => I (giftCards w)) (fun w => I (giftCards w)).
Proof.
  intros HJI Hstable w Hw. unfold giftCardRepository_update, bind, get.
  destruct (attempt_cases "gift_cards update" w)
    as [[_ ->]|[[rest [_ ->]]|[rest [_ ->]]]]; cbn; auto;
    destruct (updateRow _ id (giftCards w)) as [rows|] eqn:Hu; cbn; auto;
    apply updateRow_Some in Hu as [i [x [_ [_ ->]]]]; auto.
Qed.

(** The induction principle for the gift-card table: an assertion that
    survives issuing a card and the two balance patches survives every
    request, whatever the failure script does. *)
Lemma handleRequest_cards qr policy (I : list GiftCard.t -> Prop) :
  (forall g c, I g ->
     inRange 1 10000 (GiftCard.initialValue c) = true ->
     GiftCard.currentBalance c = GiftCard.initialValue c ->
     GiftCard.status c = GiftCard.active ->
     I (g ++ [c])%list) ->
  (forall g j c i a, I g -> g !! i = Some c -> inRange 1 10000 a = true ->
     I (alter (GiftCard.merge
                 (GiftCard.mkPartial (Some (GiftCard.currentBalance c + a)%Q) None))
              j g)) ->
  (forall g j c i a, I g -> g !! i = Some c ->
     num_lt (GiftCard.currentBalance c) a = false ->
     I (alter (GiftCard.merge
                 (GiftCard.mkPartial
                    (Some (GiftCard.currentBalance c - a)%Q)
                    (if num_eq (GiftCard.currentBalance c - a) 0
                     then Some GiftCard.used else None)))
              j g)) ->
  forall r,
    hoare (fun w => I (giftCards w)) (handleRequest qr policy r)
          (fun _ w => I (giftCards w)) (fun w => I (giftCards w)).
Proof.
  intros Hcreate Hrecharge Huse r.
  destruct r as [now nanoid data|now data|now data]; cbn [handleRequest].
  - eapply hoare_bind; [apply validateUsing_spec|]. intros ?.
    apply hoare_weaken
      with (P' := fun w => I (giftCards w)
                          /\ inRange 1 10000 (CreateGiftCardData.initialValue data) = true)
           (Q' := fun _ w => I (giftCards w)) (E' := fun w => I (giftCards w));
      [| intros w [Hw Hs]; split; [exact Hw|] | cbn; auto | cbn; auto].
    2:{ unfold createSchema in Hs. repeat (apply andb_prop in Hs as [Hs ?]). assumption. }
    apply hoare_pure. intros Hrange.
    apply hoare_bind with (R := fun _ w => I (giftCards w));
      [|intros; apply hoare_ret; cbn; auto].
    unfold CreateGiftCardService_execute.
    eapply hoare_bind; [apply validateFranchiseeEstablishment_spec|]. intros ?.
    eapply hoare_bind; [apply (hoare_attempt _ (fun w => I (giftCards w))); auto|].
    intros ?. eapply hoare_bind; [apply hoare_get|]. intros w0.
    eapply hoare_bind; [apply hoare_modify|]. intros ?.
    apply hoare_ret. intros w' [w [[-> Hw] ->]]. cbn.
    apply Hcreate; auto.
  - eapply hoare_bind; [apply validateUsing_spec|]. intros ?.
    apply hoare_weaken
      with (P' := fun w => I (giftCards w)
                          /\ inRange 1 10000 (RechargeData.amount data) = true)
           (Q' := fun _ w => I (giftCards w)) (E' := fun w => I (giftCards w));
      [| intros w [Hw Hs]; split; [exact Hw|] | cbn; auto | cbn; auto].
    2:{ unfold rechargeSchema in Hs. repeat (apply andb_prop in Hs as [Hs ?]). assumption. }
    apply hoare_pure. intros Hrange.
    apply hoare_bind with (R := fun _ w => I (giftCards w));
      [|intros; apply hoare_ret; cbn; auto].
    unfold RechargeGiftCardService_execute.
    eapply hoare_bind; [apply hoare_get|]. intros loaded.
    eapply hoare_bind.
    { eapply hoare_weaken; [apply (validateGiftCard_spec _ _ _ (fun w => I (giftCards w)))
                           | intros w [_ H]; exact H | intros ? w H; exact H | cbn; auto]. }
    intros giftCard.
    set (J := fun g : list GiftCard.t => I g /\ exists i, g !! i = Some giftCard).
    eapply hoare_bind.
    { eapply hoare_weaken;
        [apply (hoare_leaves giftCards _ J), transactionService_create_leaves_cards
        | intros w [Hw [Hr _]]; split; [exact Hw | exact (resolveCard_lookup _ _ _ Hr)]
        | intros ? w H; exact H
        | intros w [H _]; exact H]. }
    intros transaction.
    eapply hoare_bind.
    { apply (giftCardRepository_update_spec _ _ I J).
      - intros g [H _]; exact H.
      - intros g j [Hg [i Hi]]. eapply Hrecharge; eauto. }
    intros ?.
    destruct (findRow (franchisees loaded) (GiftCard.franchiseeId giftCard));
      [|apply hoare_throw; cbn; auto].
    eapply hoare_bind;
      [apply (hoare_leaves giftCards _ I), commissionService_create_leaves_cards|].
    intros; apply hoare_ret; cbn; auto.
  - eapply hoare_bind; [apply validateUsing_spec|]. intros ?.
    apply hoare_weaken
      with (P' := fun w => I (giftCards w))
           (Q' := fun _ w => I (giftCards w)) (E' := fun w => I (giftCards w));
      [| intros w [H _]; exact H | cbn; auto | cbn; auto].
    apply hoare_bind with (R := fun _ w => I (giftCards w));
      [|intros; apply hoare_ret; cbn; auto].
    unfold UseGiftCardService_execute.
    eapply hoare_bind.
    { apply (validateGiftCard_spec _ _ _ (fun w => I (giftCards w))). }
    intros giftCard.
    destruct (num_lt (GiftCard.currentBalance giftCard) (UseData.amount data)) eqn:Hlt.
    { apply hoare_throw. intros w [H _]; exact H. }
    set (J := fun g : list GiftCard.t => I g /\ exists i, g !! i = Some giftCard).
    eapply hoare_bind.
    { eapply hoare_weaken;
        [apply (hoare_leaves giftCards _ J), transactionService_create_leaves_cards
        | intros w [Hw [Hr _]]; split; [exact Hw | exact (resolveCard_lookup _ _ _ Hr)]
        | intros ? w H; exact H
        | intros w [H _]; exact H]. }
    intros transaction.
    eapply hoare_bind.
    { apply (giftCardRepository_update_spec _ _ I J).
      - intros g [H _]; exact H.
      - intros g j [Hg [i Hi]]. eapply Huse; eauto. }
    intros; apply hoare_ret; cbn; auto.
Qed.

Lemma serve_cards qr policy (I : list GiftCard.t -> Prop) :
  (forall r, hoare (fun w => I (giftCards w)) (handleRequest qr policy r)
                   (fun _ w => I (giftCards w)) (fun w => I (giftCards w))) ->
  forall rs w, I (giftCards w) -> I (giftCards (serve qr policy rs w)).
Proof.
  intros Hstep rs. induction rs as [|r rs IH]; intros w Hw; [exact Hw|].
  cbn. apply IH. specialize (Hstep r w Hw).
  destruct (handleRequest qr policy r w) as [[a|e] w']; exact Hstep.
Qed.

(** ** Inversion of successful runs *)

Lemma bind_Ok {A B} (m : M A) (k : A -> M B) w b w' :
  bind m k w = (Ok b, w') ->
  exists a w1, m w = (Ok a, w1) /\ k a w1 = (Ok b, w').
Proof.
  unfold bind. destruct (m w) as [[a|e] w1]; [eauto | discriminate].
Qed.

Lemma attempt_Ok what w u w' :
  attempt what w = (Ok u, w') -> exists script, w' = with_faults script w.
Proof.
  destruct u.
  destruct (attempt_cases what w) as [[_ ->]|[[rest [_ ->]]|[rest [_ ->]]]];
    intros [= <-]; [exists (faults w); symmetry; apply with_faults_same | eauto].
Qed.

Lemma validateGiftCard_Ok policy now key w c w' :
  validateGiftCard policy now key w = (Ok c, w') ->
  w' = w /\ resolveCard w key = Some c /\ policy now c = None.
Proof.
  unfold validateGiftCard, bind, get.
  destruct (resolveCard w key) as [x|]; [|discriminate].
  destruct (policy now x) eqn:Hp; [discriminate|].
  intros [= <- <-]. auto.
Qed.

Lemma transactionService_create_Ok g e k a b1 b2 d w t w' :
  transactionService_create g e k a b1 b2 d w = (Ok t, w') ->
  exists script,
    t = Transaction.mk (nextId (transactions w)) g e k a b1 b2 d
    /\ w' = with_transactions (transactions w ++ [t]) (with_faults script w).
Proof.
  unfold transactionService_create. intros H.
  apply bind_Ok in H as [u [w1 [Ha H]]]. apply attempt_Ok in Ha as [script ->].
  cbn in H. injection H as <- <-. exists script. auto.
Qed.

Lemma commissionService_create_Ok f e t a r w c w' :
  commissionService_create f e t a r w = (Ok c, w') ->
  exists script,
    c = Commission.mk (nextId (commissions w)) f e t a r Commission.pending
                      None None None
    /\ w' = with_commissions (commissions w ++ [c]) (with_faults script w).
Proof.
  unfold commissionService_create. intros H.
  apply bind_Ok in H as [u [w1 [Ha H]]]. apply attempt_Ok in Ha as [script ->].
  cbn in H. injection H as <- <-. exists script. auto.
Qed.

Lemma giftCardRepository_update_Ok id updates w u w' :
  giftCardRepository_update id updates w = (Ok u, w') ->
  exists script i c,
    id = S i /\ giftCards w !! i = Some c
    /\ w' = with_giftCards (alter (GiftCard.merge updates) i (giftCards w))
                           (with_faults script w).
Proof.
  unfold giftCardRepository_update. intros H.
  apply bind_Ok in H as [? [w1 [Ha H]]]. apply attempt_Ok in Ha as [script ->].
  cbn in H. unfold bind in H. cbn in H.
  destruct (updateRow _ id (giftCards w)) as [rows|] eqn:Hu; [|discriminate].
  cbn in H. injection H as <-.
  apply updateRow_Some in Hu as [i [c [-> [Hc ->]]]]. exists script, i, c. auto.
Qed.

Lemma commissionRepository_update_Ok id updates w u w' :
  commissionRepository_update id updates w = (Ok u, w') ->
  exists script i c,
    id = S i /\ commissions w !! i = Some c
    /\ w' = with_commissions (alter (Commission.merge updates) i (commissions w))
                             (with_faults script w).
Proof.
  unfold commissionRepository_update. intros H.
  apply bind_Ok in H as [? [w1 [Ha H]]]. apply attempt_Ok in Ha as [script ->].
  cbn in H. unfold bind in H. cbn in H.
  destruct (updateRow _ id (commissions w)) as [rows|] eqn:Hu; [|discriminate].
  cbn in H. injection H as <-.
  apply updateRow_Some in Hu as [i [c [-> [Hc ->]]]]. exists script, i, c. auto.
Qed.

(** What a successful recharge returns and writes. *)
Lemma recharge_Ok policy now data w r w' :
  RechargeGiftCardService_execute policy now data w = (Ok r, w') ->
  exists giftCard franchisee i stored,
    resolveCard w (idOrCode (RechargeData.giftCardId data) (RechargeData.code data))
      = Some giftCard
    /\ policy now giftCard = None
    /\ findRow (franchisees w) (GiftCard.franchiseeId giftCard) = Some franchisee
    /\ GiftCard.id giftCard = S i /\ giftCards w !! i = Some stored
    /\ let balanceAfter :=
         (GiftCard.currentBalance giftCard + RechargeData.amount data)%Q in
       let t := Transaction.mk (nextId (transactions w)) (GiftCard.id giftCard)
                  (RechargeData.establishmentId data) Transaction.recharge
                  (RechargeData.amount data) (GiftCard.currentBalance giftCard)
                  balanceAfter (RechargeData.description data) in
       let c := Commission.mk (nextId (commissions w))
                  (GiftCard.franchiseeId giftCard)
                  (RechargeData.establishmentId data) (Transaction.id t)
                  (RechargeData.amount data
                   * (Franchisee.commissionRate franchisee / 100))%Q
                  (Franchisee.commissionRate franchisee)
                  Commission.pending None None None in
       r = mkRechargeResult t giftCard c
       /\ giftCards w'
          = alter (GiftCard.merge (GiftCard.mkPartial (Some balanceAfter) None))
                  i (giftCards w)
       /\ transactions w' = (transactions w ++ [t])%list
       /\ commissions w' = (commissions w ++ [c])%list
       /\ franchisees w' = franchisees w
       /\ establishments w' = establishments w
       /\ webhooks w' = webhooks w
       /\ asaasCustomers w' = asaasCustomers w
       /\ asaasCharges w' = asaasCharges w
       /\ notifications w' = notifications w.
Proof.
  unfold RechargeGiftCardService_execute. intros H.
  apply bind_Ok in H as [loaded [w0 [Hg H]]]. injection Hg as <- <-.
  apply bind_Ok in H as [giftCard [w1 [Hv H]]].
  apply validateGiftCard_Ok in Hv as [-> [Hr Hp]].
  apply bind_Ok in H as [t [w2 [Ht H]]].
  apply transactionService_create_Ok in Ht as [s1 [Ht ->]].
  apply bind_Ok in H as [u [w3 [Hu H]]].
  apply giftCardRepository_update_Ok in Hu as [s2 [i [stored [Hid [Hi ->]]]]].
  destruct (findRow (franchisees w) (GiftCard.franchiseeId giftCard))
    as [franchisee|] eqn:Hf; [|discriminate].
  apply bind_Ok in H as [c [w4 [Hc H]]].
  apply commissionService_create_Ok in Hc as [s3 [Hc ->]].
  injection H as <- <-.
  exists giftCard, franchisee, i, stored. subst t c. cbn.
  repeat split; auto.
Qed.

(** What a successful use returns and writes. *)
Lemma use_Ok policy now data w r w' :
  UseGiftCardService_execute policy now data w = (Ok r, w') ->
  exists giftCard i stored,
    resolveCard w (idOrCode (UseData.giftCardId data) (UseData.code data))
      = Some giftCard
    /\ policy now giftCard = None
    /\ num_lt (GiftCard.currentBalance giftCard) (UseData.amount data) = false
    /\ GiftCard.id giftCard = S i /\ giftCards w !! i = Some stored
    /\ let balanceAfter :=
         (GiftCard.currentBalance giftCard - UseData.amount data)%Q in
       let t := Transaction.mk (nextId (transactions w)) (GiftCard.id giftCard)
                  (UseData.establishmentId data) Transaction.usage
                  (UseData.amount data) (GiftCard.currentBalance giftCard)
                  balanceAfter (UseData.description data) in
       let updates :=
         GiftCard.mkPartial (Some balanceAfter)
           (if num_eq balanceAfter 0 then Some GiftCard.used else None) in
       r = mkUseResult t (GiftCard.merge updates giftCard)
       /\ giftCards w' = alter (GiftCard.merge updates) i (giftCards w)
       /\ transactions w' = (transactions w ++ [t])%list
       /\ commissions w' = commissions w.
Proof.
  unfold UseGiftCardService_execute. intros H.
  apply bind_Ok in H as [giftCard [w1 [Hv H]]].
  apply validateGiftCard_Ok in Hv as [-> [Hr Hp]].
  destruct (num_lt (GiftCard.currentBalance giftCard) (UseData.amount data)) eqn:Hlt;
    [discriminate|].
  apply bind_Ok in H as [t [w2 [Ht H]]].
  apply transactionService_create_Ok in Ht as [s1 [Ht ->]].
  apply bind_Ok in H as [u [w3 [Hu H]]].
  apply giftCardRepository_update_Ok in Hu as [s2 [i [stored [Hid [Hi ->]]]]].
  injection H as <- <-.
  exists giftCard, i, stored. subst t. cbn.
  repeat split; auto.
Qed.

(** ** Runs in which every write completes *)

Lemma attempt_noFaults what w : faults w = [] -> attempt what w = (Ok tt, w).
Proof. intros H. unfold attempt. rewrite H. reflexivity. Qed.

Lemma resolveCard_row w key c :
  Ledgered (giftCards w) (transactions w) ->
  resolveCard w key = Some c ->
  exists i, GiftCard.id c = S i /\ giftCards w !! i = Some c.
Proof.
  intros [Hcards _] Hr. apply resolveCard_lookup in Hr as [i Hi].
  exists i. split; [apply (Hcards i c Hi) | exact Hi].
Qed.

Lemma transactionService_create_run g e k a b1 b2 d w :
  faults w = [] ->
  transactionService_create g e k a b1 b2 d w
  = (Ok (Transaction.mk (nextId (transactions w)) g e k a b1 b2 d),
     with_transactions
       (transactions w ++ [Transaction.mk (nextId (transactions w)) g e k a b1 b2 d])
       w).
Proof.
  intros H. unfold transactionService_create, bind.
  rewrite (attempt_noFaults _ _ H). reflexivity.
Qed.

Lemma commissionService_create_run f e t a r w :
  faults w = [] ->
  commissionService_create f e t a r w
  = (Ok (Commission.mk (nextId (commissions w)) f e t a r Commission.pending
                       None None None),
     with_commissions
       (commissions w ++ [Commission.mk (nextId (commissions w)) f e t a r
                                         Commission.pending None None None])
       w).
Proof.
  intros H. unfold commissionService_create, bind.
  rewrite (attempt_noFaults _ _ H). reflexivity.
Qed.

Lemma giftCardRepository_update_run i c updates w :
  faults w = [] -> giftCards w !! i = Some c ->
  giftCardRepository_update (S i) updates w
  = (Ok tt, with_giftCards (alter (GiftCard.merge updates) i (giftCards w)) w).
Proof.
  intros H Hc. unfold giftCardRepository_update, bind.
  rewrite (attempt_noFaults _ _ H). cbn. unfold updateRow. cbn. rewrite Hc.
  reflexivity.
Qed.

(** ** Balance bounds *)



Lemma num_lt_true x y : (x < y)%Q -> num_lt x y = true.
Proof.
  unfold num_lt. intros H. apply negb_true_iff.
  destruct (Qle_bool y x) eqn:Hle; [|reflexivity].
  apply Qle_bool_iff in Hle. exfalso. exact (Qlt_not_le _ _ H Hle).
Qed.







(** ** The transaction chain *)

Lemma ledger_snoc start h final t :
  ledger start h final ->
  Transaction.balanceBefore t = final -> arithmeticOk t ->
  ledger start (h ++ [t]) (Transaction.balanceAfter t).
Proof.
  revert start. induction h as [|x h IH]; intros start Hl Hb Ha; cbn in *.
  - subst. auto.
  - destruct Hl as [H1 [H2 H3]]. auto.
Qed.

Lemma ledger_chain start h final : ledger start h final -> transactionChain h final.
Proof.
  revert start. induction h as [|t rest IH]; intros start Hl.
  - repeat split; [intros i t t' H; discriminate | intros t H; discriminate | constructor].
  - destruct Hl as [Hb [Ha Hl]]. destruct (IH _ Hl) as [Hadj [Hlast Hall]].
    repeat split.
    + intros [|i] x y Hx Hy.
      * injection Hx as <-. destruct rest as [|z rest']; [discriminate|].
        injection Hy as <-. destruct Hl as [Hz _]. symmetry. exact Hz.
      * exact (Hadj i x y Hx Hy).
    + intros x Hx. destruct rest as [|z rest'].
      * injection Hx as <-. exact Hl.
      * apply Hlast. exact Hx.
    + constructor; assumption.
Qed.

Lemma historyOf_snoc txs t id :
  historyOf (txs ++ [t]) id
  = (historyOf txs id ++ if Nat.eqb (Transaction.giftCardId t) id then [t] else [])%list.
Proof.
  unfold historyOf. rewrite List.filter_app. cbn.
  destruct (Nat.eqb (Transaction.giftCardId t) id); reflexivity.
Qed.

Lemma historyOf_unknown txs id :
  Forall (fun t => (Transaction.giftCardId t < id)%nat) txs -> historyOf txs id = [].
Proof.
  induction 1 as [|t txs Ht _ IH]; [reflexivity|]. cbn.
  destruct (Nat.eqb_spec (Transaction.giftCardId t) id); [lia | exact IH].
Qed.

(** Issuing a card keeps the ledger consistent. *)
Lemma Ledgered_issue cards txs c :
  Ledgered cards txs ->
  GiftCard.id c = nextId cards ->
  GiftCard.currentBalance c = GiftCard.initialValue c ->
  Ledgered (cards ++ [c]) txs.
Proof.
  intros [Hcards Hknown] Hid Hbal. split.
  - intros i x Hx. apply lookup_snoc_Some in Hx as [[_ Hx]|[-> <-]].
    + exact (Hcards i x Hx).
    + split; [exact Hid|]. rewrite historyOf_unknown; [cbn; auto|].
      eapply Forall_impl; [exact Hknown|]. cbn. intros; lia.
  - eapply Forall_impl; [exact Hknown|]. cbn. intros t Ht.
    rewrite length_app. cbn. lia.
Qed.

(** Recording a transaction computed from the stored balance, together with
    the balance it results in, keeps the ledger consistent. *)
Lemma Ledgered_record cards txs i c t f :
  Ledgered cards txs ->
  cards !! i = Some c ->
  Transaction.giftCardId t = S i ->
  Transaction.balanceBefore t = GiftCard.currentBalance c ->
  arithmeticOk t ->
  GiftCard.id (f c) = GiftCard.id c ->
  GiftCard.initialValue (f c) = GiftCard.initialValue c ->
  GiftCard.currentBalance (f c) = Transaction.balanceAfter t ->
  Ledgered (alter f i cards) (txs ++ [t]).
Proof.
  intros [Hcards Hknown] Hc Ht Hb Ha Hid Hinit Hbal. split.
  - intros j x Hx. rewrite list_lookup_alter in Hx. rewrite historyOf_snoc, Ht.
    destruct (decide (i = j)) as [<-|Hne].
    + rewrite Hc in Hx. injection Hx as <-. rewrite Nat.eqb_refl.
      destruct (Hcards i c Hc) as [Hi Hl]. split; [congruence|].
      rewrite Hinit, Hbal. eapply ledger_snoc; eauto.
    + destruct (Nat.eqb_spec (S i) (S j)) as [Heq|_]; [congruence|].
      rewrite app_nil_r. exact (Hcards j x Hx).
  - rewrite length_alter. apply Forall_app. split; [exact Hknown|].
    constructor; [|constructor]. rewrite Ht. apply lookup_lt_Some in Hc. lia.
Qed.

(** Every request keeps a fault-free world consistent. *)
Lemma Consistent_step qr policy r :
  hoare Consistent (handleRequest qr policy r) (fun _ => Consistent) Consistent.
Proof.
  destruct r as [now nanoid data|now data|now data]; cbn [handleRequest].
  - eapply hoare_bind; [apply validateUsing_spec|]. intros ?.
    apply hoare_weaken
      with (P' := Consistent) (Q' := fun _ => Consistent) (E' := Consistent);
      [| intros w [H _]; exact H | auto | auto].
    apply hoare_bind with (R := fun _ => Consistent);
      [|intros; apply hoare_ret; auto].
    unfold CreateGiftCardService_execute.
    eapply hoare_bind; [apply validateFranchiseeEstablishment_spec|]. intros ?.
    eapply hoare_bind;
      [apply (hoare_attempt_ok _ Consistent); intros w [H _]; exact H|].
    intros ?. eapply hoare_bind; [apply hoare_get|]. intros w0.
    eapply hoare_bind; [apply hoare_modify|]. intros ?.
    apply hoare_ret. intros w' [w [[-> [Hf Hl]] ->]]. split; [exact Hf|]. cbn.
    apply Ledgered_issue; auto.
  - eapply hoare_bind; [apply validateUsing_spec|]. intros ?.
    apply hoare_weaken
      with (P' := Consistent) (Q' := fun _ => Consistent) (E' := Consistent);
      [| intros w [H _]; exact H | auto | auto].
    apply hoare_bind with (R := fun _ => Consistent);
      [|intros; apply hoare_ret; auto].
    unfold RechargeGiftCardService_execute.
    eapply hoare_bind; [apply hoare_get|]. intros loaded.
    eapply hoare_bind.
    { eapply hoare_weaken;
        [apply (validateGiftCard_spec _ _ _ Consistent)
        | intros w [_ H]; exact H | intros ? w H; exact H | auto]. }
    intros giftCard w [[Hf Hl] [Hr _]].
    destruct (resolveCard_row _ _ _ Hl Hr) as [i [Hid Hi]].
    unfold bind. rewrite (transactionService_create_run _ _ _ _ _ _ _ _ Hf).
    rewrite Hid. rewrite (giftCardRepository_update_run i giftCard) by assumption.
    assert (Hrec : Ledgered
              (alter (GiftCard.merge
                        (GiftCard.mkPartial
                           (Some (GiftCard.currentBalance giftCard
                                  + RechargeData.amount data)%Q) None))
                     i (giftCards w))
              (transactions w ++
                 [Transaction.mk (nextId (transactions w)) (S i)
                    (RechargeData.establishmentId data) Transaction.recharge
                    (RechargeData.amount data) (GiftCard.currentBalance giftCard)
                    (GiftCard.currentBalance giftCard + RechargeData.amount data)%Q
                    (RechargeData.description data)])).
    { apply Ledgered_record with (c := giftCard); auto. reflexivity. }
    destruct (findRow (franchisees loaded) (GiftCard.franchiseeId giftCard)).
    + rewrite commissionService_create_run by exact Hf. split; [exact Hf | exact Hrec].
    + split; [exact Hf | exact Hrec].
  - eapply hoare_bind; [apply validateUsing_spec|]. intros ?.
    apply hoare_weaken
      with (P' := Consistent) (Q' := fun _ => Consistent) (E' := Consistent);
      [| intros w [H _]; exact H | auto | auto].
    apply hoare_bind with (R := fun _ => Consistent);
      [|intros; apply hoare_ret; auto].
    unfold UseGiftCardService_execute.
    eapply hoare_bind; [apply (validateGiftCard_spec _ _ _ Consistent)|].
    intros giftCard w [[Hf Hl] [Hr _]].
    destruct (num_lt (GiftCard.currentBalance giftCard) (UseData.amount data));
      [split; assumption|].
    destruct (resolveCard_row _ _ _ Hl Hr) as [i [Hid Hi]].
    unfold bind. rewrite (transactionService_create_run _ _ _ _ _ _ _ _ Hf).
    rewrite Hid. rewrite (giftCardRepository_update_run i giftCard) by assumption.
    split; [exact Hf|]. cbn.
    apply Ledgered_record with (c := giftCard); auto. reflexivity.
Qed.

Lemma Consistent_serve qr policy rs w :
  Consistent w -> Consistent (serve qr policy rs w).
Proof.
  revert w. induction rs as [|r rs IH]; intros w Hw; [exact Hw|].
  cbn. apply IH. pose proof (Consistent_step qr policy r w Hw) as H.
  destruct (handleRequest qr policy r w) as [[a|e] w']; exact H.
Qed.

(** The part of the transaction chain the code does deliver: in every world
    reached by serving requests one after the other with no failing call,
    the transactions of each card, in creation order, chain (each
    [balanceAfter] is the next [balanceBefore]), end at the card's current
    balance, and each obeys [balanceAfter = balanceBefore + amount] for a
    recharge and [balanceBefore - amount] for a usage. *)
Theorem transaction_chain_holds qr policy fs es rs i c :
  giftCards (serve qr policy rs (initialWorld fs es [])) !! i = Some c ->
  transactionChain (history (serve qr policy rs (initialWorld fs es [])) (GiftCard.id c))
                   (GiftCard.currentBalance c).
Proof.
  intros Hc.
  assert (Hcons : Consistent (serve qr policy rs (initialWorld fs es []))).
  { apply Consistent_serve. split; [reflexivity|]. split.
    - intros j x Hx. discriminate.
    - constructor. }
  destruct Hcons as [_ [Hcards _]]. destruct (Hcards i c Hc) as [Hid Hl].
  rewrite Hid. eapply ledger_chain. exact Hl.
Qed.

(** The chain of a card that is issued at 100, recharged by 50 and emptied. *)
Lemma transaction_chain_witness :
  let w := serve demoQr activePolicy
             [CreateGiftCard 0 "ABCDEFGHIJKLMNOP" (demoCreate 100);
              Recharge 0 (demoRecharge 50);
              Use 0 (demoUse 150)]
             (initialWorld [demoFranchisee 5] [demoEstablishment None] []) in
  exists c, giftCards w !! 0%nat = Some c
            /\ length (history w (GiftCard.id c)) = 2%nat
            /\ transactionChain (history w (GiftCard.id c)) (GiftCard.currentBalance c).
Proof.
  eexists. split; [reflexivity|]. split; [reflexivity|].
  apply (transaction_chain_holds demoQr activePolicy
           [demoFranchisee 5] [demoEstablishment None]
           [CreateGiftCard 0 "ABCDEFGHIJKLMNOP" (demoCreate 100);
            Recharge 0 (demoRecharge 50);
            Use 0 (demoUse 150)] 0%nat).
  reflexivity.
Defined.

(** C2 at a failing input: a card is issued at 100 and recharged by 50, the
    transaction insert succeeds and the balance update that follows it is
    rejected.  The card's only transaction ends at 150 while the card holds
    100, so the last [balanceAfter] is not the current balance.  A later
    recharge of 10, all of whose writes complete, starts from the stale 100:
    the log reads 100 to 150, then 100 to 110, so a [balanceAfter] is no
    longer the next [balanceBefore].  Each row on its own still obeys
    [balanceAfter = balanceBefore + amount]. *)
Theorem rejected_update_breaks_the_chain :
  let stale :=
    serve demoQr activePolicy
          [CreateGiftCard 0 "ABCDEFGHIJKLMNOP" (demoCreate 100);
           Recharge 0 (demoRecharge 50)]
          (demoWorld 5 [false; false; true]) in
  let later := serve demoQr activePolicy [Recharge 0 (demoRecharge 10)] stale in
  (exists c t,
      giftCards stale !! 0%nat = Some c
      /\ history stale (GiftCard.id c) = [t]
      /\ Transaction.balanceBefore t = 100%Q
      /\ Transaction.balanceAfter t = 150%Q
      /\ GiftCard.currentBalance c = 100%Q
      /\ ~ transactionChain (history stale (GiftCard.id c))
                            (GiftCard.currentBalance c))
  /\ (exists c t1 t2,
        giftCards later !! 0%nat = Some c
        /\ history later (GiftCard.id c) = [t1; t2]
        /\ Transaction.balanceAfter t1 = 150%Q
        /\ Transaction.balanceBefore t2 = 100%Q
        /\ Transaction.balanceAfter t2 = 110%Q
        /\ GiftCard.currentBalance c = 110%Q
        /\ Forall arithmeticOk (history later (GiftCard.id c))
        /\ ~ transactionChain (history later (GiftCard.id c))
                              (GiftCard.currentBalance c)).
Proof.
  cbv zeta. split.
  - do 2 eexists. repeat split; try reflexivity.
    intros (_ & Hlast & _). specialize (Hlast _ eq_refl). discriminate Hlast.
  - do 3 eexists. repeat split; try reflexivity.
    + repeat constructor.
    + intros (Hnext & _). specialize (Hnext 0%nat _ _ eq_refl eq_refl).
      discriminate Hnext.
Qed.

(** ** Atomicity of the balance write *)

(** C3 at a failing input: the transaction insert succeeds and the balance
    update that follows it is rejected; the transaction row (100 to 150, or
    100 to 70) stays although the card still holds 100. *)
Theorem balance_write_is_not_atomic :
  let before := issued 5 100 [false; true] in
  let recharged :=
    RechargeGiftCardService_execute activePolicy 0 (demoRecharge 50) before in
  let spent := UseGiftCardService_execute activePolicy 0 (demoUse 30) before in
  transactions before = []
  /\ thrown (fst recharged) = Some (Error "gift_cards update")
  /\ (exists t, transactions (snd recharged) = [t]
                /\ Transaction.balanceAfter t = 150%Q)
  /\ (exists c, giftCards (snd recharged) !! 0%nat = Some c
                /\ GiftCard.currentBalance c = 100%Q)
  /\ thrown (fst spent) = Some (Error "gift_cards update")
  /\ (exists t, transactions (snd spent) = [t]
                /\ (Transaction.balanceAfter t == 70)%Q)
  /\ (exists c, giftCards (snd spent) !! 0%nat = Some c
                /\ GiftCard.currentBalance c = 100%Q).
Proof.
  cbv zeta. repeat split; try reflexivity; eexists; split; reflexivity.
Qed.

(** ** Commission derivation *)

(** C4, as the code has it: a successful recharge appends exactly one
    commission whose amount is the product [amount * (rate / 100)] as the
    service writes it, with no rounding applied to it, whose rate is the
    franchisee's rate read when the recharge started, whose status is
    pending, and it makes no gateway call. *)
Theorem recharge_creates_pending_commission policy now data w r w' :
  RechargeGiftCardService_execute policy now data w = (Ok r, w') ->
  exists franchisee,
    findRow (franchisees w) (GiftCard.franchiseeId (rr_giftCard r)) = Some franchisee
    /\ Commission.amount (rr_commission r)
       = (RechargeData.amount data * (Franchisee.commissionRate franchisee / 100))%Q
    /\ Commission.rate (rr_commission r) = Franchisee.commissionRate franchisee
    /\ Commission.status (rr_commission r) = Commission.pending
    /\ Commission.transactionId (rr_commission r) = Transaction.id (rr_transaction r)
    /\ commissions w' = (commissions w ++ [rr_commission r])%list
    /\ asaasCustomers w' = asaasCustomers w
    /\ asaasCharges w' = asaasCharges w.
Proof.
  intros H. apply recharge_Ok in H
    as (giftCard & franchisee & i & stored & _ & _ & Hf & _ & _
        & -> & _ & _ & Hc & _ & _ & _ & Hcust & Hch & _).
  exists franchisee. cbn. repeat split; auto.
Qed.

(** A recharge of 50 at 5 %: one pending commission of 2.50, no gateway call. *)
Lemma recharge_creates_pending_commission_witness :
  exists franchisee,
    findRow [demoFranchisee 5] 1 = Some franchisee
    /\ Franchisee.commissionRate franchisee = 5%Q
    /\ let run := RechargeGiftCardService_execute activePolicy 0 (demoRecharge 50)
                    (issued 5 100 []) in
       exists r, fst run = Ok r
                 /\ (Commission.amount (rr_commission r) == 5 # 2)%Q
                 /\ Commission.status (rr_commission r) = Commission.pending
                 /\ commissions (snd run) = [rr_commission r]
                 /\ asaasCharges (snd run) = [].
Proof.
  destruct (recharge_creates_pending_commission activePolicy 0 (demoRecharge 50)
              (issued 5 100 [])
              (mkRechargeResult
                 (Transaction.mk 1 1 1 Transaction.recharge 50 100 (100 + 50)
                                 (Some "Account recharge"))
                 (GiftCard.mk 1 "GC-ABCD-EFGH-IJKL-MNOP"
                              "data:image/png;base64,iVBORw0KGgoAAAANSUhEUgAA"
                              1 1 100 100 GiftCard.active None)
                 (Commission.mk 1 1 1 1 (50 * (5 / 100)) 5 Commission.pending
                                None None None))
              (snd (RechargeGiftCardService_execute activePolicy 0 (demoRecharge 50)
                      (issued 5 100 []))))
    as (franchisee & Hf & Ha & Hr & Hs & _ & Hc & _ & Hg).
  - reflexivity.
  - exists franchisee. split; [exact Hf|]. split; [rewrite <- Hr; reflexivity|].
    eexists. split; [reflexivity|]. repeat split; reflexivity.
Defined.

(** C4 as stated fails: a recharge of 1 at a rate of 5.5 % yields a
    commission of 0.055, which is neither [round] of it (0) nor its rounding
    to cents (0.06). *)
Lemma commission_amount_is_not_rounded :
  let run := RechargeGiftCardService_execute activePolicy 0 (demoRecharge 1)
               (issued (11 # 2) 100 []) in
  exists r, fst run = Ok r
            /\ (Commission.amount (rr_commission r) == 11 # 200)%Q
            /\ ~ (Commission.amount (rr_commission r) == round (1 * (11 # 2) / 100))%Q
            /\ ~ (Commission.amount (rr_commission r)
                  == roundCents (1 * (11 # 2) / 100))%Q.
Proof.
  eexists. split; [reflexivity|]. cbn. repeat split; intros H; discriminate H.
Qed.

(** ** The insufficient-balance error *)

(** C5 at a failing input: using 200 from a card holding 150 is rejected and
    writes nothing, but the error is a [BadRequestException]: the response
    has status 400, code E_BAD_REQUEST, and carries neither the available
    nor the requested amount. *)
Theorem insufficient_balance_is_a_bad_request :
  let before := issued 5 150 [] in
  let run := UseGiftCardService_execute activePolicy 0 (demoUse 200) before in
  exists e,
    fst run = Throw e
    /\ snd run = before
    /\ e = BadRequestException "Insufficient balance"
    /\ responseStatus (HttpExceptionHandler_handle e) = 400%nat
    /\ responseStatus (HttpExceptionHandler_handle e) <> 422%nat
    /\ responseBody (HttpExceptionHandler_handle e)
       = [("code", JString "E_BAD_REQUEST");
          ("message", JString "Insufficient balance");
          ("status", JInt 400)]
    /\ hasField "available" (responseBody (HttpExceptionHandler_handle e)) = false
    /\ hasField "requested" (responseBody (HttpExceptionHandler_handle e)) = false.
Proof.
  eexists. split; [reflexivity|]. repeat split; try reflexivity. discriminate.
Qed.

(** The part of C5 the code does deliver: an overdrawing use is rejected
    before anything is written. *)
Lemma overdraft_writes_nothing policy now data w giftCard :
  resolveCard w (idOrCode (UseData.giftCardId data) (UseData.code data))
    = Some giftCard ->
  policy now giftCard = None ->
  (GiftCard.currentBalance giftCard < UseData.amount data)%Q ->
  UseGiftCardService_execute policy now data w
  = (Throw (BadRequestException "Insufficient balance"), w).
Proof.
  intros Hr Hp Hlt.
  unfold UseGiftCardService_execute, validateGiftCard, bind, get.
  rewrite Hr, Hp. cbn. rewrite (num_lt_true _ _ Hlt). reflexivity.
Qed.

(** ** Invariants of the settlement services *)

Lemma invariant_ret {A} I (a : A) : invariant I (ret a).
Proof. apply hoare_ret. auto. Qed.

Lemma invariant_throw {A} I e : invariant I (@throw A e).
Proof. apply hoare_throw. auto. Qed.

Lemma invariant_get I : invariant I get.
Proof. intros w Hw. exact Hw. Qed.

Lemma invariant_bind {A B} I (m : M A) (k : A -> M B) :
  invariant I m -> (forall a, invariant I (k a)) -> invariant I (bind m k).
Proof. intros Hm Hk. eapply hoare_bind; [exact Hm | exact Hk]. Qed.

Lemma invariant_tryCatch {A} I (body : M A) handler :
  invariant I body -> (forall e, invariant I (handler e)) ->
  invariant I (tryCatch body handler).
Proof. intros Hb Hh. eapply hoare_tryCatch; [exact Hb | exact Hh]. Qed.

Lemma invariant_leaves {A B} (field : World -> B) (I : B -> Prop) (m : M A) :
  leaves field m -> invariant (fun w => I (field w)) m.
Proof. intros H. apply (hoare_leaves field m I H). Qed.

Lemma establishmentRepository_update_leaves_commissions id v :
  leaves commissions (establishmentRepository_update id v).
Proof. unfold establishmentRepository_update. frame. Qed.

Lemma CreateCustomerService_leaves_commissions e :
  leaves commissions (CreateCustomerService_execute e).
Proof.
  unfold CreateCustomerService_execute.
  destruct (truthy (Establishment.asaasCustomerId e)); [apply leaves_ret|].
  apply leaves_bind; [unfold asaasClient_createCustomer; frame|]. intros customerId.
  apply leaves_bind; [apply establishmentRepository_update_leaves_commissions|].
  intros; apply leaves_ret.
Qed.

Lemma asaasClient_createCharge_leaves_commissions d :
  leaves commissions (asaasClient_createCharge d).
Proof. unfold asaasClient_createCharge. frame. Qed.

Lemma notificationService_send_leaves_commissions n :
  leaves commissions (notificationService_send n).
Proof. unfold notificationService_send. frame. Qed.

Lemma webhookRepository_update_leaves_commissions id now :
  leaves commissions (webhookRepository_update id now).
Proof. unfold webhookRepository_update. frame. Qed.

Lemma commissionRepository_update_forward id updates (I : list Commission.t -> Prop) :
  (forall rows j, I rows -> I (alter (Commission.merge updates) j rows)) ->
  invariant (fun w => I (commissions w)) (commissionRepository_update id updates).
Proof.
  intros Hstable w Hw. unfold commissionRepository_update, bind, get.
  destruct (attempt_cases "commissions update" w)
    as [[_ ->]|[[rest [_ ->]]|[rest [_ ->]]]]; cbn; auto;
    destruct (updateRow _ id (commissions w)) as [rows|] eqn:Hu; cbn; auto;
    apply updateRow_Some in Hu as [i [x [_ [_ ->]]]]; auto.
Qed.

(** An assertion on the commission table that survives every forward patch
    survives every settlement operation, whichever calls fail. *)
Lemma charge_service_invariant format (I : list Commission.t -> Prop) data :
  forwardStable I ->
  invariant (fun w => I (commissions w))
            (CreateCommissionChargeService_execute format data).
Proof.
  intros I_forward.
  unfold CreateCommissionChargeService_execute.
  apply invariant_bind;
    [apply (invariant_leaves commissions I), CreateCustomerService_leaves_commissions|].
  intros customerId. apply invariant_bind;
    [apply (invariant_leaves commissions I), asaasClient_createCharge_leaves_commissions|].
  intros charge. apply invariant_bind; [|intros; apply invariant_ret].
  apply commissionRepository_update_forward. intros rows j.
  apply I_forward. discriminate.
Qed.

Lemma charge_job_invariant format (I : list Commission.t -> Prop) job :
  forwardStable I ->
  invariant (fun w => I (commissions w)) (CommissionChargeJob_handle format job).
Proof.
  intros I_forward.
  unfold CommissionChargeJob_handle. apply invariant_tryCatch.
  - apply invariant_bind; [apply invariant_get|]. intros w.
    destruct (findWithRelations w (job_commissionId job)) as [[c e]|];
      [|apply invariant_throw].
    apply invariant_bind; [apply charge_service_invariant; exact I_forward|].
    intros; apply invariant_ret.
  - intros e. apply invariant_bind; [|intros; apply invariant_throw].
    apply commissionRepository_update_forward. intros rows j.
    apply I_forward. discriminate.
Qed.

Lemma webhook_service_invariant (I : list Commission.t -> Prop) data :
  forwardStable I ->
  invariant (fun w => I (commissions w)) (ProcessWebhookService_execute data).
Proof.
  intros I_forward.
  unfold ProcessWebhookService_execute.
  apply invariant_bind.
  { unfold findCommissionByPayment. apply invariant_bind; [apply invariant_get|].
    intros; apply invariant_ret. }
  intros [c|]; [|apply invariant_ret].
  destruct (isOneOf (event data) ["PAYMENT_CONFIRMED"; "PAYMENT_RECEIVED"]).
  { unfold handlePaymentSuccess. apply invariant_bind.
    - apply commissionRepository_update_forward. intros rows j.
      apply I_forward. discriminate.
    - intros. apply (invariant_leaves commissions I),
                notificationService_send_leaves_commissions. }
  destruct (isOneOf (event data) ["PAYMENT_OVERDUE"]).
  { apply (invariant_leaves commissions I), notificationService_send_leaves_commissions. }
  destruct (isOneOf (event data) ["PAYMENT_DELETED"; "PAYMENT_REFUNDED"]);
    [|apply invariant_ret].
  unfold handlePaymentCancellation.
  destruct (Commission.status c); try apply invariant_ret;
    apply commissionRepository_update_forward; intros rows j;
    apply I_forward; discriminate.
Qed.

Lemma webhook_job_invariant (I : list Commission.t -> Prop) now webhookId :
  forwardStable I ->
  invariant (fun w => I (commissions w)) (ProcessWebhookJob_handle now webhookId).
Proof.
  intros I_forward.
  unfold ProcessWebhookJob_handle. apply invariant_tryCatch;
    [|intros; apply invariant_throw].
  apply invariant_bind; [apply invariant_get|]. intros w.
  destruct (findRow (webhooks w) webhookId) as [h|]; [|apply invariant_ret].
  destruct (Webhook.processedAt h); [apply invariant_ret|].
  apply invariant_bind; [apply webhook_service_invariant; exact I_forward|]. intros.
  apply (invariant_leaves commissions I), webhookRepository_update_leaves_commissions.
Qed.

Lemma settle_invariant format (I : list Commission.t -> Prop) op :
  forwardStable I ->
  invariant (fun w => I (commissions w)) (settle format op).
Proof.
  intros I_forward.
  destruct op; cbn [settle].
  - apply invariant_bind; [apply charge_service_invariant; exact I_forward|].
    intros; apply invariant_ret.
  - apply charge_job_invariant; exact I_forward.
  - apply webhook_service_invariant; exact I_forward.
  - apply webhook_job_invariant; exact I_forward.
Qed.

(** ** The commission state machine *)

Lemma invariant_snd {A} I (m : M A) w : invariant I m -> I w -> I (snd (m w)).
Proof.
  intros H Hw. specialize (H w Hw). destruct (m w) as [[a|e] w']; exact H.
Qed.

Lemma leftPending_forward i updates rows j :
  forwardPatch updates -> leftPending i rows ->
  leftPending i (alter (Commission.merge updates) j rows).
Proof.
  intros Hp [c [Hc Hs]]. unfold leftPending. rewrite list_lookup_alter.
  destruct (decide (j = i)) as [->|_]; [|eauto].
  rewrite Hc. eexists. split; [reflexivity|]. cbn.
  unfold forwardPatch in Hp. destruct (Commission.setStatus updates); cbn; congruence.
Qed.

Lemma findRow_alter {A} (f : A -> A) rows i x :
  rows !! i = Some x -> findRow (alter f i rows) (S i) = Some (f x).
Proof.
  intros H. cbn. rewrite list_lookup_alter.
  destruct (decide (i = i)); [|congruence]. rewrite H. reflexivity.
Qed.

Lemma findCommissionByPayment_run payment w :
  findCommissionByPayment payment w
  = (Ok (List.find (matchesPayment payment) (commissions w)), w).
Proof. reflexivity. Qed.

(** What a successful [handlePaymentSuccess] writes. *)
Lemma handlePaymentSuccess_Ok c payment w w' :
  handlePaymentSuccess c payment w = (Ok tt, w') ->
  exists i stored,
    Commission.id c = S i /\ commissions w !! i = Some stored
    /\ commissions w' = alter (Commission.merge (paidPatch payment)) i (commissions w).
Proof.
  unfold handlePaymentSuccess. intros H.
  apply bind_Ok in H as [u [w1 [Hu H]]].
  apply commissionRepository_update_Ok in Hu as [s [i [stored [Hid [Hi ->]]]]].
  exists i, stored. split; [exact Hid|]. split; [exact Hi|].
  pose proof (notificationService_send_leaves_commissions
                (PaymentConfirmation (Commission.id c))
                (with_commissions
                   (alter (Commission.merge (paidPatch payment)) i (commissions w))
                   (with_faults s w))) as Hl.
  fold (paidPatch payment) in H. rewrite H in Hl. exact Hl.
Qed.

(** C6, as the code has it: no settlement operation moves a commission back
    to pending; a charge request that succeeds leaves the commission charged
    and a confirmation webhook that is applied leaves it paid, whatever the
    status was before; a failed charge job leaves it failed.  None of the
    three entry points checks the current status. *)
Theorem commission_status_never_returns_to_pending :
  (forall format op w i c c',
      commissions w !! i = Some c ->
      commissions (snd (settle format op w)) !! i = Some c' ->
      Commission.status c <> Commission.pending ->
      Commission.status c' <> Commission.pending)
  /\ (forall format data w charge w',
        CreateCommissionChargeService_execute format data w = (Ok charge, w') ->
        statusOf w' (Commission.id (cc_commission data)) = Some Commission.charged)
  /\ (forall data w c w',
        isConfirmation data = true ->
        List.find (matchesPayment (payment data)) (commissions w) = Some c ->
        ProcessWebhookService_execute data w = (Ok tt, w') ->
        statusOf w' (Commission.id c) = Some Commission.paid)
  /\ (forall s,
        succeeded (fst (CreateCommissionChargeService_execute demoFormat
                          (demoChargeRequest s "pix") (settlementWorld s []))) = true
        /\ statusOf (snd (ProcessWebhookService_execute demoConfirmation
                            (settlementWorld s []))) 1
           = Some Commission.paid
        /\ statusOf (snd (CommissionChargeJob_handle demoFormat
                            (mkChargeJobData 1 "pix" 15 None)
                            (settlementWorld s [true]))) 1
           = Some Commission.failed).
Proof.
  split; [|split; [|split]].
  - intros format op w i c c' Hc Hc' Hs.
    assert (H : leftPending i (commissions (snd (settle format op w)))).
    { apply (invariant_snd (fun w => leftPending i (commissions w))).
      - apply settle_invariant. intros updates rows j. apply leftPending_forward.
      - exists c. auto. }
    destruct H as [x [Hx Hxs]]. congruence.
  - intros format data w charge w' H.
    unfold CreateCommissionChargeService_execute in H.
    apply bind_Ok in H as [customerId [w1 [_ H]]].
    apply bind_Ok in H as [ch [w2 [_ H]]].
    apply bind_Ok in H as [u [w3 [Hu H]]].
    injection H as _ <-.
    apply commissionRepository_update_Ok in Hu as [s [i [stored [Hid [Hi ->]]]]].
    unfold statusOf. rewrite Hid. cbn [commissions with_commissions].
    rewrite (findRow_alter _ _ _ _ Hi). reflexivity.
  - intros data w c w' Hconf Hfind H.
    unfold ProcessWebhookService_execute in H.
    apply bind_Ok in H as [found [w1 [Hf H]]].
    rewrite findCommissionByPayment_run in Hf. injection Hf as <- <-.
    rewrite Hfind in H. unfold isConfirmation in Hconf. rewrite Hconf in H.
    apply handlePaymentSuccess_Ok in H as [i [stored [Hid [Hi Hw']]]].
    unfold statusOf. rewrite Hid, Hw', (findRow_alter _ _ _ _ Hi). reflexivity.
  - intros s. destruct s; repeat split; reflexivity.
Qed.

(** A charged commission that receives its confirmation does not return to pending. *)
Lemma commission_status_witness :
  let before := settlementWorld Commission.charged [] in
  let after := snd (settle demoFormat (DeliverWebhook demoConfirmation) before) in
  exists c', commissions after !! 0%nat = Some c'
             /\ Commission.status c' <> Commission.pending.
Proof.
  eexists. split; [reflexivity|].
  apply (proj1 commission_status_never_returns_to_pending demoFormat
           (DeliverWebhook demoConfirmation) (settlementWorld Commission.charged [])
           0%nat (demoCommission Commission.charged)).
  - reflexivity.
  - reflexivity.
  - discriminate.
Defined.

(** C6 as stated fails: a commission that is already paid accepts a charge
    request and becomes charged, and a pending commission that receives a
    payment confirmation becomes paid; neither transition is in the state
    machine and neither entry point is guarded. *)
Lemma unguarded_status_transitions :
  let paidWorld := settlementWorld Commission.paid [] in
  let run := CreateCommissionChargeService_execute demoFormat
               (demoChargeRequest Commission.paid "pix") paidWorld in
  let pendingWorld := settlementWorld Commission.pending [] in
  let confirmed := ProcessWebhookService_execute demoConfirmation pendingWorld in
  statusOf paidWorld 1 = Some Commission.paid
  /\ chargeable Commission.paid = false
  /\ succeeded (fst run) = true
  /\ statusOf (snd run) 1 = Some Commission.charged
  /\ allowedTransition Commission.paid Commission.charged = false
  /\ statusOf pendingWorld 1 = Some Commission.pending
  /\ succeeded (fst confirmed) = true
  /\ statusOf (snd confirmed) 1 = Some Commission.paid
  /\ allowedTransition Commission.pending Commission.paid = false.
Proof. cbv zeta. repeat split; reflexivity. Qed.

(** ** Idempotence of the payment confirmation *)

Lemma find_alter_id {A} (p : A -> bool) (key : A -> nat) (f : A -> A)
  (rows : list A) (i : nat) :
  (forall x, p (f x) = p x) -> (forall x, key (f x) = key x) ->
  key <$> List.find p (alter f i rows) = key <$> List.find p rows.
Proof.
  intros Hp Hk. revert i. induction rows as [|x rows IH]; intros i; [reflexivity|].
  destruct i as [|i]; cbn.
  - rewrite Hp. destruct (p x); cbn; [rewrite Hk|]; reflexivity.
  - destruct (p x); [reflexivity | apply IH].
Qed.

Lemma alter_idempotent {A} (f : A -> A) (rows : list A) (i : nat) :
  (forall x, f (f x) = f x) -> alter f i (alter f i rows) = alter f i rows.
Proof.
  intros Hf. rewrite list_alter_alter_eq. apply list_alter_ext; [|reflexivity].
  intros x _. cbn. apply Hf.
Qed.

Lemma paidPatch_idempotent payment c :
  Commission.merge (paidPatch payment) (Commission.merge (paidPatch payment) c)
  = Commission.merge (paidPatch payment) c.
Proof. reflexivity. Qed.

Lemma paidPatch_keeps_match payment payment' c :
  matchesPayment payment' (Commission.merge (paidPatch payment) c)
  = matchesPayment payment' c.
Proof. reflexivity. Qed.

(** Whatever the script does, [handlePaymentSuccess] leaves the commission
    table alone or applies the paid patch to the row of that commission. *)
Lemma handlePaymentSuccess_writes c payment w :
  commissions (snd (handlePaymentSuccess c payment w)) = commissions w
  \/ commissions (snd (handlePaymentSuccess c payment w))
     = alter (Commission.merge (paidPatch payment)) (pred (Commission.id c))
             (commissions w).
Proof.
  unfold handlePaymentSuccess. fold (paidPatch payment). unfold bind.
  destruct (commissionRepository_update (Commission.id c) (paidPatch payment) w)
    as [[u|e] w1] eqn:Hu.
  - apply commissionRepository_update_Ok in Hu as [s [i [stored [Hid [Hi ->]]]]].
    right. rewrite notificationService_send_leaves_commissions, Hid. reflexivity.
  - left. revert Hu. unfold commissionRepository_update, bind, get.
    destruct (attempt_cases "commissions update" w)
      as [[_ ->]|[[rest [_ ->]]|[rest [_ ->]]]]; cbn;
      try destruct (updateRow _ _ (commissions w)); cbn; intros [= _ <-]; reflexivity.
Qed.

Lemma tryCatch_rethrow_Ok {A} (body : M A) w a w' :
  tryCatch body (fun error => throw error) w = (Ok a, w') -> body w = (Ok a, w').
Proof.
  unfold tryCatch. destruct (body w) as [[x|e] w1]; [auto | discriminate].
Qed.

(** C7: once a payment confirmation has been applied, applying the same
    event again leaves the commission table exactly as it was (status paid,
    the same [paidAt]), whether the replay completes or a call in it fails;
    and a webhook job that has completed is a no-op when it runs again. *)
Theorem confirmation_webhook_is_idempotent :
  (forall data w w1 script,
      isConfirmation data = true ->
      ProcessWebhookService_execute data w = (Ok tt, w1) ->
      commissions (snd (ProcessWebhookService_execute data (with_faults script w1)))
      = commissions w1)
  /\ (forall data w w1 c,
        isConfirmation data = true ->
        List.find (matchesPayment (payment data)) (commissions w) = Some c ->
        ProcessWebhookService_execute data w = (Ok tt, w1) ->
        exists c1,
          findRow (commissions w1) (Commission.id c) = Some c1
          /\ Commission.status c1 = Commission.paid
          /\ Commission.paidAt c1
             = Some (fromISO (if truthy (confirmedDate (payment data))
                              then confirmedDate (payment data)
                              else clientPaymentDate (payment data)))
          /\ forall script c2,
               findRow (commissions
                          (snd (ProcessWebhookService_execute data
                                  (with_faults script w1)))) (Commission.id c)
               = Some c2 -> c2 = c1)
  /\ (forall now now' webhookId w w1,
        ProcessWebhookJob_handle now webhookId w = (Ok tt, w1) ->
        ProcessWebhookJob_handle now' webhookId w1 = (Ok tt, w1)).
Proof.
  assert (Hfirst : forall data w w1 script,
      isConfirmation data = true ->
      ProcessWebhookService_execute data w = (Ok tt, w1) ->
      commissions (snd (ProcessWebhookService_execute data (with_faults script w1)))
      = commissions w1).
  { intros data w w1 script Hconf H.
    unfold ProcessWebhookService_execute in *. unfold isConfirmation in Hconf.
    rewrite Hconf in *.
    apply bind_Ok in H as [found [w0 [Hf H]]].
    rewrite findCommissionByPayment_run in Hf. injection Hf as <- <-.
    unfold bind. rewrite findCommissionByPayment_run.
    cbn [commissions with_faults].
    destruct (List.find (matchesPayment (payment data)) (commissions w))
      as [c|] eqn:Hfind.
    - apply handlePaymentSuccess_Ok in H as [i [stored [Hid [Hi Hw1]]]].
      pose proof (find_alter_id (matchesPayment (payment data)) Commission.id
                    (Commission.merge (paidPatch (payment data))) (commissions w) i
                    (paidPatch_keeps_match _ _) (fun x => eq_refl)) as Hsame.
      rewrite <- Hw1, Hfind in Hsame.
      destruct (List.find (matchesPayment (payment data)) (commissions w1))
        as [c1|]; [|discriminate].
      injection Hsame as Hsame.
      destruct (handlePaymentSuccess_writes c1 (payment data) (with_faults script w1))
        as [->| ->]; [reflexivity|].
      cbn [commissions with_faults]. rewrite Hsame, Hid. cbn [pred].
      rewrite Hw1. apply alter_idempotent. intros x. apply paidPatch_idempotent.
    - injection H as <-. rewrite Hfind. reflexivity. }
  split; [exact Hfirst|]. split.
  - intros data w w1 c Hconf Hfind H.
    pose proof (Hfirst data w w1) as Hreplay. specialize (fun s => Hreplay s Hconf H).
    unfold ProcessWebhookService_execute in H.
    apply bind_Ok in H as [found [w0 [Hf H]]].
    rewrite findCommissionByPayment_run in Hf. injection Hf as <- <-.
    rewrite Hfind in H. unfold isConfirmation in Hconf. rewrite Hconf in H.
    apply handlePaymentSuccess_Ok in H as [i [stored [Hid [Hi Hw1]]]].
    exists (Commission.merge (paidPatch (payment data)) stored).
    rewrite Hid, Hw1, (findRow_alter _ _ _ _ Hi).
    split; [reflexivity|]. split; [reflexivity|]. split; [reflexivity|].
    intros script c2. rewrite Hreplay, Hw1, (findRow_alter _ _ _ _ Hi). congruence.
  - intros now now' webhookId w w1 H.
    unfold ProcessWebhookJob_handle in *. apply tryCatch_rethrow_Ok in H.
    unfold tryCatch, bind, get in *.
    destruct (findRow (webhooks w) webhookId) as [h|] eqn:Hh.
    + destruct (Webhook.processedAt h) eqn:Hp.
      * injection H as <-. rewrite Hh, Hp. reflexivity.
      * destruct (ProcessWebhookService_execute (Webhook.payload h) w)
          as [[u|e] w2]; [|discriminate].
        unfold webhookRepository_update, bind, get in H.
        destruct (attempt "payment_webhooks update" w2) as [[u'|e] w3] eqn:Ha;
          [|discriminate].
        apply attempt_Ok in Ha as [s ->]. cbn in H.
        destruct (updateRow _ webhookId (webhooks w2)) as [rows|] eqn:Hu;
          [|discriminate].
        injection H as <-.
        apply updateRow_Some in Hu as [i [x [-> [Hx ->]]]].
        cbn [webhooks with_webhooks]. rewrite (findRow_alter _ _ _ _ Hx).
        reflexivity.
    + injection H as <-. rewrite Hh. reflexivity.
Qed.

(** Replaying the confirmation of a charged commission, with a failing notification. *)
Lemma confirmation_webhook_witness :
  let w1 := snd (ProcessWebhookService_execute demoConfirmation
                   (settlementWorld Commission.charged [])) in
  statusOf w1 1 = Some Commission.paid
  /\ commissions (snd (ProcessWebhookService_execute demoConfirmation
                         (with_faults [false; true] w1)))
     = commissions w1.
Proof.
  split; [reflexivity|].
  apply (proj1 confirmation_webhook_is_idempotent demoConfirmation
           (settlementWorld Commission.charged [])); reflexivity.
Defined.

(** ** The used status *)

Lemma markedUsed_issue i rows c : markedUsed i rows -> markedUsed i (rows ++ [c]).
Proof.
  intros [x [Hx Hs]]. exists x. split; [|exact Hs].
  rewrite lookup_app_l; [exact Hx | exact (lookup_lt_Some _ _ _ Hx)].
Qed.

Lemma markedUsed_patch i rows j balance mark :
  mark = None \/ mark = Some GiftCard.used ->
  markedUsed i rows ->
  markedUsed i (alter (GiftCard.merge (GiftCard.mkPartial balance mark)) j rows).
Proof.
  intros Hmark [x [Hx Hs]]. unfold markedUsed. rewrite list_lookup_alter.
  destruct (decide (j = i)) as [->|_]; [|eauto].
  rewrite Hx. eexists. split; [reflexivity|]. cbn.
  destruct Hmark as [->| ->]; [exact Hs | reflexivity].
Qed.

Lemma settle_leaves_giftCards format op : leaves giftCards (settle format op).
Proof.
  destruct op; cbn [settle];
    unfold CommissionChargeJob_handle, ProcessWebhookJob_handle;
    unfold CreateCommissionChargeService_execute, ProcessWebhookService_execute;
    unfold ensureCustomer, CreateCustomerService_execute, findCommissionByPayment,
      handlePaymentSuccess, handlePaymentOverdue, handlePaymentCancellation;
    unfold asaasClient_createCustomer, asaasClient_createCharge,
      establishmentRepository_update, commissionRepository_update,
      notificationService_send, webhookRepository_update;
    cbv zeta; frame.
Qed.

(** C8: a successful use stores the status used exactly when the balance it
    computes is 0 and otherwise leaves the stored status as it was; and a
    card marked used stays used through every later gift-card request and
    every settlement operation, whichever calls fail. *)
Theorem used_exactly_when_balance_reaches_zero :
  (forall policy now data w r w',
      UseGiftCardService_execute policy now data w = (Ok r, w') ->
      exists giftCard i stored stored',
        resolveCard w (idOrCode (UseData.giftCardId data) (UseData.code data))
          = Some giftCard
        /\ GiftCard.id giftCard = S i
        /\ giftCards w !! i = Some stored
        /\ giftCards w' !! i = Some stored'
        /\ GiftCard.currentBalance stored'
           = (GiftCard.currentBalance giftCard - UseData.amount data)%Q
        /\ ((GiftCard.currentBalance stored' == 0)%Q ->
            GiftCard.status stored' = GiftCard.used)
        /\ (~ (GiftCard.currentBalance stored' == 0)%Q ->
            GiftCard.status stored' = GiftCard.status stored)
        /\ GiftCard.status (ur_giftCard r)
           = if num_eq (GiftCard.currentBalance stored') 0
             then GiftCard.used else GiftCard.status giftCard)
  /\ (forall qr policy r w i c,
        giftCards w !! i = Some c -> GiftCard.status c = GiftCard.used ->
        exists c', giftCards (snd (handleRequest qr policy r w)) !! i = Some c'
                   /\ GiftCard.status c' = GiftCard.used)
  /\ (forall format op w, giftCards (snd (settle format op w)) = giftCards w).
Proof.
  split; [|split].
  - intros policy now data w r w' H.
    apply use_Ok in H
      as (giftCard & i & stored & Hr & _ & _ & Hid & Hi & -> & Hg & _).
    exists giftCard, i, stored. eexists.
    split; [exact Hr|]. split; [exact Hid|]. split; [exact Hi|].
    split; [rewrite Hg, list_lookup_alter; destruct (decide (i = i)); [|congruence];
            rewrite Hi; reflexivity|].
    cbn. split; [reflexivity|]. unfold num_eq.
    destruct (Qeq_bool (GiftCard.currentBalance giftCard - UseData.amount data) 0)
      eqn:Hz; cbn.
    + repeat split; auto. intros Hn. apply Qeq_bool_iff in Hz. contradiction.
    + repeat split; auto. intros Hq. apply Qeq_bool_iff in Hq. congruence.
  - intros qr policy r w i c Hc Hs.
    apply (invariant_snd (fun w => markedUsed i (giftCards w))).
    + apply (handleRequest_cards qr policy (markedUsed i)).
      * intros g x Hg _ _ _. apply markedUsed_issue. exact Hg.
      * intros g j x k a Hg _ _. apply markedUsed_patch; auto.
      * intros g j x k a Hg _ _. apply markedUsed_patch; [|exact Hg].
        destruct (num_eq (GiftCard.currentBalance x - a) 0); auto.
    + exists c. auto.
  - intros format op w. apply settle_leaves_giftCards.
Qed.

(** A card emptied by a use of 150 is used, and stays used after a recharge request. *)
Lemma used_status_witness :
  let run := UseGiftCardService_execute activePolicy 0 (demoUse 150)
               (issued 5 150 []) in
  exists c, giftCards (snd run) !! 0%nat = Some c
            /\ GiftCard.status c = GiftCard.used
            /\ exists c',
                 giftCards (snd (handleRequest demoQr activePolicy
                                   (Recharge 0 (demoRecharge 10)) (snd run)))
                   !! 0%nat = Some c'
                 /\ GiftCard.status c' = GiftCard.used.
Proof.
  eexists. split; [reflexivity|]. split; [reflexivity|].
  eapply (proj1 (proj2 used_exactly_when_balance_reaches_zero)); reflexivity.
Defined.

(** ** Mapping of the payment method *)

Lemma recognised_methods :
  mapPaymentMethod "ticket" = JsString "BOLETO"
  /\ mapPaymentMethod "pix" = JsString "PIX"
  /\ mapPaymentMethod "credit_card" = JsString "CREDIT_CARD".
Proof. repeat split; reflexivity. Qed.

(** A method that is neither a key of the mapping nor a name inherited from
    [Object.prototype] falls back to PIX. *)
Lemma unknown_method_falls_back_to_pix method :
  method <> "ticket" -> method <> "pix" -> method <> "credit_card" ->
  existsb (String.eqb method) Object_prototype = false ->
  mapPaymentMethod method = JsString "PIX".
Proof.
  intros H1 H2 H3 Hproto. unfold mapPaymentMethod, getProperty, mapping.
  rewrite !lookup_insert_ne by congruence. rewrite lookup_empty, Hproto.
  reflexivity.
Qed.

(** C9 at a failing input: the method name [constructor] is none of the
    three keys, yet [mapping[method]] finds the member every object inherits
    from [Object.prototype]; it is truthy, so the fallback is skipped and the
    charge request handed to the gateway carries that member as its billing
    type, not PIX.  A name that is not inherited, such as [bitcoin], does
    fall back. *)
Theorem inherited_method_name_skips_pix_fallback :
  let method := "constructor" in
  let run := CreateCommissionChargeService_execute demoFormat
               (demoChargeRequest Commission.pending method)
               (settlementWorld Commission.pending []) in
  method <> "ticket" /\ method <> "pix" /\ method <> "credit_card"
  /\ mapPaymentMethod method = JsInherited "constructor"
  /\ mapPaymentMethod method <> JsString "PIX"
  /\ billingType <$> asaasCharges (snd run) = [JsInherited "constructor"]
  /\ mapPaymentMethod "bitcoin" = JsString "PIX".
Proof. cbv zeta. repeat split; try discriminate; reflexivity. Qed.

(** ** Customer registration *)

Lemma asaasClient_createCustomer_Ok data w customerId w' :
  asaasClient_createCustomer data w = (Ok customerId, w') ->
  customerId = "cus_" ++ show (nextId (asaasCustomers w))
  /\ establishments w' = establishments w.
Proof.
  unfold asaasClient_createCustomer. intros H.
  apply bind_Ok in H as [u [w1 [Ha H]]]. apply attempt_Ok in Ha as [script ->].
  cbn in H. injection H as <- <-. auto.
Qed.

Lemma establishmentRepository_update_Ok id v w u w' :
  establishmentRepository_update id v w = (Ok u, w') ->
  exists script i e,
    id = S i /\ establishments w !! i = Some e
    /\ w' = with_establishments
              (alter (Establishment.setAsaasCustomerId v) i (establishments w))
              (with_faults script w).
Proof.
  unfold establishmentRepository_update. intros H.
  apply bind_Ok in H as [? [w1 [Ha H]]]. apply attempt_Ok in Ha as [script ->].
  cbn in H. unfold bind in H. cbn in H.
  destruct (updateRow _ id (establishments w)) as [rows|] eqn:Hu; [|discriminate].
  cbn in H. injection H as <-.
  apply updateRow_Some in Hu as [i [e [-> [He ->]]]]. exists script, i, e. auto.
Qed.

Lemma registered_customer_is_returned establishment customerId w :
  Establishment.asaasCustomerId establishment = Some customerId ->
  customerId <> "" ->
  CreateCustomerService_execute establishment w = (Ok customerId, w).
Proof.
  intros Hid Hne. unfold CreateCustomerService_execute. rewrite Hid. cbn.
  destruct (String.eqb_spec customerId ""); [contradiction | reflexivity].
Qed.

(** C10: for an establishment that already has a customer id, [execute]
    returns that id and leaves the whole world (gateway, establishments,
    failure script) untouched, so running it twice is running it once; and
    after a first registration has completed, running it again on the
    establishment as stored returns the same id and changes nothing. *)
Theorem customer_registration_is_idempotent :
  (forall establishment customerId w,
      Establishment.asaasCustomerId establishment = Some customerId ->
      customerId <> "" ->
      CreateCustomerService_execute establishment w = (Ok customerId, w)
      /\ bind (CreateCustomerService_execute establishment)
              (fun _ => CreateCustomerService_execute establishment) w
         = CreateCustomerService_execute establishment w)
  /\ (forall i establishment w customerId w1,
        establishments w !! i = Some establishment ->
        Establishment.id establishment = S i ->
        CreateCustomerService_execute establishment w = (Ok customerId, w1) ->
        exists stored,
          establishments w1 !! i = Some stored
          /\ Establishment.asaasCustomerId stored = Some customerId
          /\ CreateCustomerService_execute stored w1 = (Ok customerId, w1)).
Proof.
  split.
  - intros establishment customerId w Hid Hne.
    pose proof (registered_customer_is_returned establishment customerId w Hid Hne) as H.
    split; [exact H|]. unfold bind. rewrite H. exact H.
  - intros i establishment w customerId w1 Hi Hid H.
    unfold CreateCustomerService_execute in H.
    destruct (truthy (Establishment.asaasCustomerId establishment)) eqn:Ht.
    + injection H as <- <-. exists establishment.
      destruct (Establishment.asaasCustomerId establishment) as [v|] eqn:Hv;
        [|discriminate].
      cbn in *. split; [exact Hi|]. split; [reflexivity|].
      apply registered_customer_is_returned; [exact Hv|].
      intros ->. discriminate.
    + apply bind_Ok in H as [cid [w2 [Hc H]]].
      apply asaasClient_createCustomer_Ok in Hc as [Hcid He].
      apply bind_Ok in H as [u [w3 [Hu H]]]. injection H as <- <-.
      apply establishmentRepository_update_Ok in Hu
        as [script [j [e [Hj [Hje ->]]]]].
      assert (j = i) as -> by congruence.
      rewrite He, Hi in Hje. injection Hje as <-.
      exists (Establishment.setAsaasCustomerId cid establishment).
      cbn [establishments with_establishments]. rewrite He.
      split; [rewrite list_lookup_alter; destruct (decide (i = i)); [|congruence];
              rewrite Hi; reflexivity|].
      split; [reflexivity|].
      apply registered_customer_is_returned; [reflexivity|].
      rewrite Hcid. discriminate.
Qed.

(** A registered establishment, and one that is registered by the first run. *)
Lemma customer_registration_witness :
  CreateCustomerService_execute (demoEstablishment (Some "cus_1"))
                                (settlementWorld Commission.pending [true])
  = (Ok "cus_1", settlementWorld Commission.pending [true])
  /\ exists stored,
       establishments
         (snd (CreateCustomerService_execute (demoEstablishment None) (demoWorld 5 [])))
         !! 0%nat = Some stored
       /\ Establishment.asaasCustomerId stored = Some "cus_1"
       /\ CreateCustomerService_execute stored
            (snd (CreateCustomerService_execute (demoEstablishment None)
                    (demoWorld 5 [])))
          = (Ok "cus_1",
             snd (CreateCustomerService_execute (demoEstablishment None)
                    (demoWorld 5 []))).
Proof.
  split.
  - apply (proj1 customer_registration_is_idempotent); [reflexivity | discriminate].
  - apply (proj2 customer_registration_is_idempotent 0%nat (demoEstablishment None)
             (demoWorld 5 [])); reflexivity.
Defined.

(** * Further properties of the documented code *)

(** ** Card codes *)

Ltac sixteen id H :=
  do 16 (destruct id as [|? id]; [discriminate H|]);
  destruct id; [|discriminate H].

(** X1: for every 16-character draw of [nanoid] the code has 22 characters,
    starts with GC- and is grouped by dashes, and the draw can be read back
    from it, so different draws give different codes. *)
Theorem generated_code_shape id :
  String.length id = 16%nat ->
  String.length (generateUniqueCode id) = 22%nat
  /\ substring 0 3 (generateUniqueCode id) = "GC-"
  /\ substring 7 1 (generateUniqueCode id) = "-"
  /\ substring 12 1 (generateUniqueCode id) = "-"
  /\ substring 17 1 (generateUniqueCode id) = "-"
  /\ codeId (generateUniqueCode id) = id
  /\ forall id', String.length id' = 16%nat ->
                 generateUniqueCode id' = generateUniqueCode id -> id' = id.
Proof.
  intros H.
  assert (Hback : forall s, String.length s = 16%nat -> codeId (generateUniqueCode s) = s).
  { intros s Hs. sixteen s Hs. reflexivity. }
  repeat split; try (sixteen id H; reflexivity).
  intros id' H' Heq. rewrite <- (Hback id' H'), Heq. apply Hback, H.
Qed.

Lemma generated_code_shape_witness :
  String.length (generateUniqueCode "ABCDEFGHIJKLMNOP") = 22%nat
  /\ codeId (generateUniqueCode "ABCDEFGHIJKLMNOP") = "ABCDEFGHIJKLMNOP".
Proof.
  destruct (generated_code_shape "ABCDEFGHIJKLMNOP" eq_refl)
    as (Hlen & _ & _ & _ & _ & Hback & _).
  split; assumption.
Defined.

Lemma andb_false_inside (a b c d e : bool) : b = false -> a && b && c && d && e = false.
Proof. intros ->. destruct a; reflexivity. Qed.

(** X2: the by-code schemas require a code of exactly 21 characters, so a
    recharge or use request that carries a generated code (22 characters) is
    always rejected by validation, before any service runs. *)
Theorem generated_code_fails_validation id w :
  String.length id = 16%nat ->
  (forall d, RechargeData.code d = Some (generateUniqueCode id) ->
             rechargeSchema w d = false
             /\ validateUsing rechargeSchema d w = (Throw ValidationFailure, w))
  /\ (forall d, UseData.code d = Some (generateUniqueCode id) ->
                useSchema w d = false
                /\ validateUsing useSchema d w = (Throw ValidationFailure, w)).
Proof.
  intros H.
  assert (Hlen : (String.length (generateUniqueCode id) =? 21)%nat = false).
  { sixteen id H. reflexivity. }
  split; intros d Hd.
  - assert (Hs : rechargeSchema w d = false).
    { unfold rechargeSchema. apply andb_false_inside. rewrite Hd. exact Hlen. }
    split; [exact Hs|]. unfold validateUsing, bind, get. rewrite Hs. reflexivity.
  - assert (Hs : useSchema w d = false).
    { unfold useSchema. apply andb_false_inside. rewrite Hd. exact Hlen. }
    split; [exact Hs|]. unfold validateUsing, bind, get. rewrite Hs. reflexivity.
Qed.

Lemma generated_code_fails_validation_witness :
  rechargeSchema (issued 5 100 [])
    (RechargeData.mk None (Some "GC-ABCD-EFGH-IJKL-MNOP") 1 50 None) = false.
Proof.
  apply (proj1 (generated_code_fails_validation "ABCDEFGHIJKLMNOP"
                  (issued 5 100 []) eq_refl)).
  reflexivity.
Defined.

(** ** Issuing a card *)

(** X3: a creation that returns has appended exactly one card, which is
    active, holds its initial value, carries the next id and the generated
    code and is found under its id; a creation that throws leaves the card
    table as it was; neither touches transactions or commissions. *)
Theorem created_card_is_active_and_full qr nanoid data w :
  let run := CreateGiftCardService_execute qr nanoid data w in
  transactions (snd run) = transactions w
  /\ commissions (snd run) = commissions w
  /\ match fst run with
     | Ok c =>
         giftCards (snd run) = (giftCards w ++ [c])%list
         /\ findRow (giftCards (snd run)) (GiftCard.id c) = Some c
         /\ GiftCard.id c = nextId (giftCards w)
         /\ GiftCard.code c = generateUniqueCode nanoid
         /\ GiftCard.status c = GiftCard.active
         /\ GiftCard.currentBalance c = CreateGiftCardData.initialValue data
         /\ GiftCard.initialValue c = CreateGiftCardData.initialValue data
     | Throw _ => giftCards (snd run) = giftCards w
     end.
Proof.
  cbv zeta. unfold CreateGiftCardService_execute, validateFranchiseeEstablishment,
    bind, get.
  destruct (findRow (establishments w) (CreateGiftCardData.establishmentId data))
    as [e|]; cbn; [|auto].
  destruct (Establishment.franchiseeId e =? CreateGiftCardData.franchiseeId data)%nat;
    cbn; [|auto].
  destruct (attempt_cases "gift_cards insert" w)
    as [[_ ->]|[[rest [_ ->]]|[rest [_ ->]]]]; cbn; auto;
    (repeat split; auto; rewrite lookup_app_r by reflexivity;
     rewrite Nat.sub_diag; reflexivity).
Qed.

(** ** What the gift-card requests leave alone *)

Lemma appendsOne_leaves {A B} (field : World -> list B) fresh (m : M A) :
  leaves field m -> appendsOne field fresh m.
Proof.
  intros H w. exists []. rewrite app_nil_r. split; [apply H|]. split; [cbn; lia|constructor].
Qed.

Lemma appendsOne_bind_l {A C B} (field : World -> list B) fresh (m : M A) (k : A -> M C) :
  leaves field m -> (forall a, appendsOne field fresh (k a)) ->
  appendsOne field fresh (bind m k).
Proof.
  intros Hm Hk w. unfold bind. specialize (Hm w).
  destruct (m w) as [[a|e] w1]; cbn in *.
  - destruct (Hk a w1) as [suffix Hs]. exists suffix. rewrite <- Hm. exact Hs.
  - exists []. rewrite app_nil_r. split; [exact Hm|]. split; [cbn; lia|constructor].
Qed.

Lemma appendsOne_bind_r {A C B} (field : World -> list B) fresh (m : M A) (k : A -> M C) :
  appendsOne field fresh m -> (forall a, leaves field (k a)) ->
  appendsOne field fresh (bind m k).
Proof.
  intros Hm Hk w. unfold bind. destruct (Hm w) as [suffix Hs].
  destruct (m w) as [[a|e] w1]; cbn in *.
  - exists suffix. rewrite Hk. exact Hs.
  - exists suffix. exact Hs.
Qed.

Lemma transactionService_create_appends fresh g e k a b1 b2 d :
  (forall n, fresh (Transaction.mk n g e k a b1 b2 d)) ->
  appendsOne transactions fresh (transactionService_create g e k a b1 b2 d).
Proof.
  intros Hfresh w. unfold transactionService_create, bind, get.
  destruct (attempt_cases "transactions insert" w)
    as [[_ ->]|[[rest [_ ->]]|[rest [_ ->]]]]; cbn;
    try (eexists [_]; split; [reflexivity|]; split; [cbn; lia|];
         constructor; [apply Hfresh|constructor]).
  exists []. rewrite app_nil_r. split; [reflexivity|]. split; [cbn; lia|constructor].
Qed.

Lemma commissionService_create_appends fresh f e t a r :
  (forall n, fresh (Commission.mk n f e t a r Commission.pending None None None)) ->
  appendsOne commissions fresh (commissionService_create f e t a r).
Proof.
  intros Hfresh w. unfold commissionService_create, bind, get.
  destruct (attempt_cases "commissions insert" w)
    as [[_ ->]|[[rest [_ ->]]|[rest [_ ->]]]]; cbn;
    try (eexists [_]; split; [reflexivity|]; split; [cbn; lia|];
         constructor; [apply Hfresh|constructor]).
  exists []. rewrite app_nil_r. split; [reflexivity|]. split; [cbn; lia|constructor].
Qed.

Ltac unfold_services :=
  unfold handleRequest; unfold CreateGiftCardService_execute,
    RechargeGiftCardService_execute, UseGiftCardService_execute;
  unfold validateUsing, validateGiftCard, validateFranchiseeEstablishment;
  unfold transactionService_create, giftCardRepository_update,
    commissionService_create;
  cbv zeta.

Lemma handleRequest_appends_transaction qr policy r :
  appendsOne transactions balanceMove (handleRequest qr policy r).
Proof.
  destruct r as [now nanoid data|now data|now data]; cbn [handleRequest].
  - apply appendsOne_leaves. unfold_services. frame.
  - apply appendsOne_bind_l; [unfold validateUsing; frame|]. intros _.
    apply appendsOne_bind_r; [|intros; apply leaves_ret].
    unfold RechargeGiftCardService_execute.
    apply appendsOne_bind_l; [apply leaves_get|]. intros loaded.
    apply appendsOne_bind_l; [unfold validateGiftCard; frame|]. intros giftCard.
    apply appendsOne_bind_r.
    + apply transactionService_create_appends. intros n.
      split; [reflexivity | discriminate].
    + intros t. unfold giftCardRepository_update, commissionService_create. frame.
  - apply appendsOne_bind_l; [unfold validateUsing; frame|]. intros _.
    apply appendsOne_bind_r; [|intros; apply leaves_ret].
    unfold UseGiftCardService_execute.
    apply appendsOne_bind_l; [unfold validateGiftCard; frame|]. intros giftCard.
    destruct (num_lt (GiftCard.currentBalance giftCard) (UseData.amount data));
      [apply appendsOne_leaves, leaves_throw|].
    apply appendsOne_bind_r.
    + apply transactionService_create_appends. intros n.
      split; [reflexivity | discriminate].
    + intros t. unfold giftCardRepository_update. frame.
Qed.

Lemma serve_transactions qr policy rs w :
  exists suffix,
    transactions (serve qr policy rs w) = (transactions w ++ suffix)%list
    /\ (length suffix <= length rs)%nat /\ Forall balanceMove suffix.
Proof.
  revert w. induction rs as [|r rs IH]; intros w.
  - exists []. rewrite app_nil_r. split; [reflexivity|]. split; [cbn; lia|constructor].
  - cbn [serve fold_left].
    destruct (handleRequest_appends_transaction qr policy r w) as [s1 [H1 [L1 F1]]].
    destruct (IH (snd (handleRequest qr policy r w))) as [s2 [H2 [L2 F2]]].
    exists (s1 ++ s2)%list. unfold serve in H2. rewrite H2, H1, app_assoc.
    split; [reflexivity|]. split; [rewrite length_app; cbn; lia|].
    apply Forall_app. auto.
Qed.

Lemma settle_leaves_transactions format op : leaves transactions (settle format op).
Proof.
  destruct op; cbn [settle];
    unfold CommissionChargeJob_handle, ProcessWebhookJob_handle;
    unfold CreateCommissionChargeService_execute, ProcessWebhookService_execute;
    unfold ensureCustomer, CreateCustomerService_execute, findCommissionByPayment,
      handlePaymentSuccess, handlePaymentOverdue, handlePaymentCancellation;
    unfold asaasClient_createCustomer, asaasClient_createCharge,
      establishmentRepository_update, commissionRepository_update,
      notificationService_send, webhookRepository_update;
    cbv zeta; frame.
Qed.

(** X4: the transaction log is append-only.  Serving any requests, whichever
    calls fail, keeps every row already written unchanged and in place and
    adds at most one row per request, each a recharge or a usage whose
    [balanceAfter] is [balanceBefore] plus or minus its amount; settlement
    operations never write to the log. *)
Theorem transaction_log_is_append_only :
  (forall qr policy rs w,
      exists suffix,
        transactions (serve qr policy rs w) = (transactions w ++ suffix)%list
        /\ (length suffix <= length rs)%nat
        /\ Forall balanceMove suffix)
  /\ (forall format op w, transactions (snd (settle format op w)) = transactions w).
Proof.
  split.
  - apply serve_transactions.
  - intros format op w. apply settle_leaves_transactions.
Qed.

Lemma keepsIdentity_issue i c rows x :
  keepsIdentity i c rows -> keepsIdentity i c (rows ++ [x]).
Proof.
  intros [c' [Hc Hs]]. exists c'. split; [|exact Hs].
  rewrite lookup_app_l; [exact Hc | exact (lookup_lt_Some _ _ _ Hc)].
Qed.

Lemma keepsIdentity_patch i c rows j updates :
  keepsIdentity i c rows ->
  keepsIdentity i c (alter (GiftCard.merge updates) j rows).
Proof.
  intros [c' [Hc Hs]]. unfold keepsIdentity. rewrite list_lookup_alter.
  destruct (decide (j = i)) as [->|_]; [|eauto].
  rewrite Hc. eexists. split; [reflexivity|]. exact Hs.
Qed.

(** X5: the identity of a card is fixed when it is issued.  Whatever requests
    are served and whichever calls fail, a card stays at its row with the
    same id, code, QR code, franchisee, establishment, initial value and
    expiry; only its balance and status are ever written, and no card is
    ever removed. *)
Theorem card_identity_is_immutable qr policy rs w i c :
  giftCards w !! i = Some c ->
  keepsIdentity i c (giftCards (serve qr policy rs w))
  /\ (length (giftCards w) <= length (giftCards (serve qr policy rs w)))%nat.
Proof.
  intros Hc. split.
  - apply (serve_cards qr policy (keepsIdentity i c)).
    + intros r. apply (handleRequest_cards qr policy (keepsIdentity i c)).
      * intros g x Hg _ _ _. apply keepsIdentity_issue, Hg.
      * intros g j x k a Hg _ _. apply keepsIdentity_patch, Hg.
      * intros g j x k a Hg _ _. apply keepsIdentity_patch, Hg.
    + exists c. split; [exact Hc|]. repeat split.
  - apply (serve_cards qr policy
             (fun g => (length (giftCards w) <= length g)%nat)); [|lia].
    intros r.
    apply (handleRequest_cards qr policy
             (fun g => (length (giftCards w) <= length g)%nat)).
    + intros g x Hg _ _ _. rewrite length_app. cbn. lia.
    + intros g j x k a Hg _ _. rewrite length_alter. exact Hg.
    + intros g j x k a Hg _ _. rewrite length_alter. exact Hg.
Qed.

Lemma card_identity_witness :
  keepsIdentity 0 (GiftCard.mk 1 "GC-ABCD-EFGH-IJKL-MNOP"
                               "data:image/png;base64,iVBORw0KGgoAAAANSUhEUgAA"
                               1 1 100 100 GiftCard.active None)
    (giftCards (serve demoQr activePolicy
                  [Recharge 0 (demoRecharge 50); Use 0 (demoUse 150)]
                  (issued 5 100 [false; true]))).
Proof.
  apply (card_identity_is_immutable demoQr activePolicy
           [Recharge 0 (demoRecharge 50); Use 0 (demoUse 150)]
           (issued 5 100 [false; true]) 0%nat).
  reflexivity.
Defined.

(** ** Conservation of balance *)

Lemma ledger_replay start h final :
  ledger start h final ->
  Forall (fun t => Transaction.type t <> Transaction.refund) h ->
  final = replay start h.
Proof.
  revert start. induction h as [|t rest IH]; intros start Hl Hno.
  - cbn in *. congruence.
  - destruct Hl as [Hb [Ha Hl]]. inversion Hno as [|? ? Ht Hrest]; subst.
    rewrite (IH _ Hl Hrest). unfold replay. cbn [fold_left]. f_equal.
    unfold applyTransaction. unfold arithmeticOk in Ha.
    destruct (Transaction.type t); [exact Ha | exact Ha | congruence].
Qed.

Lemma Forall_historyOf (P : Transaction.t -> Prop) txs id :
  Forall P txs -> Forall P (historyOf txs id).
Proof.
  induction 1 as [|t txs Ht _ IH]; [constructor|]. cbn.
  destruct (Nat.eqb (Transaction.giftCardId t) id); [constructor; assumption | exact IH].
Qed.

(** X6: when requests are served one after the other and every write
    completes, each card's balance is exactly what replaying its
    transactions gives: start from the initial value and, in creation
    order, add the amount of each recharge and subtract the amount of each
    usage, the same operations in the same order as the services performed
    them. *)
Theorem balance_is_replay_of_transactions qr policy fs es rs i c :
  giftCards (serve qr policy rs (initialWorld fs es [])) !! i = Some c ->
  GiftCard.currentBalance c
  = replay (GiftCard.initialValue c)
           (history (serve qr policy rs (initialWorld fs es [])) (GiftCard.id c)).
Proof.
  intros Hc.
  assert (Hcons : Consistent (serve qr policy rs (initialWorld fs es []))).
  { apply Consistent_serve. split; [reflexivity|]. split.
    - intros j x Hx. discriminate.
    - constructor. }
  destruct Hcons as [_ [Hcards _]]. destruct (Hcards i c Hc) as [Hid Hl].
  rewrite Hid. apply ledger_replay; [exact Hl|].
  apply Forall_historyOf.
  destruct (serve_transactions qr policy rs (initialWorld fs es []))
    as [suffix [Hs [_ Hmoves]]].
  rewrite Hs. cbn. eapply Forall_impl; [exact Hmoves|].
  intros t [_ Ht]. exact Ht.
Qed.

Lemma balance_replay_witness :
  let w := serve demoQr activePolicy
             [CreateGiftCard 0 "ABCDEFGHIJKLMNOP" (demoCreate 100);
              Recharge 0 (demoRecharge 50);
              Use 0 (demoUse 30)]
             (initialWorld [demoFranchisee 5] [demoEstablishment None] []) in
  exists c, giftCards w !! 0%nat = Some c
            /\ length (history w (GiftCard.id c)) = 2%nat
            /\ GiftCard.currentBalance c
               = replay (GiftCard.initialValue c) (history w (GiftCard.id c)).
Proof.
  eexists. split; [reflexivity|]. split; [reflexivity|].
  apply (balance_is_replay_of_transactions demoQr activePolicy
           [demoFranchisee 5] [demoEstablishment None]
           [CreateGiftCard 0 "ABCDEFGHIJKLMNOP" (demoCreate 100);
            Recharge 0 (demoRecharge 50);
            Use 0 (demoUse 30)] 0%nat).
  reflexivity.
Defined.

(** ** What the two balance services return *)



(** ** Reach of the gift-card requests *)

(** X8: a gift-card request, served or rejected, with or without failing
    writes, never calls the payment gateway, never sends a notification and
    never writes to the franchisee, establishment or webhook tables. *)
Theorem gift_card_requests_stay_in_the_ledger qr policy r w :
  let w' := snd (handleRequest qr policy r w) in
  asaasCustomers w' = asaasCustomers w
  /\ asaasCharges w' = asaasCharges w
  /\ notifications w' = notifications w
  /\ webhooks w' = webhooks w
  /\ establishments w' = establishments w
  /\ franchisees w' = franchisees w.
Proof.
  cbv zeta.
  assert (Hc : leaves asaasCustomers (handleRequest qr policy r))
    by (destruct r; unfold_services; frame).
  assert (Hg : leaves asaasCharges (handleRequest qr policy r))
    by (destruct r; unfold_services; frame).
  assert (Hn : leaves notifications (handleRequest qr policy r))
    by (destruct r; unfold_services; frame).
  assert (Hw : leaves webhooks (handleRequest qr policy r))
    by (destruct r; unfold_services; frame).
  assert (He : leaves establishments (handleRequest qr policy r))
    by (destruct r; unfold_services; frame).
  assert (Hf : leaves franchisees (handleRequest qr policy r))
    by (destruct r; unfold_services; frame).
  repeat split; [apply Hc | apply Hg | apply Hn | apply Hw | apply He | apply Hf].
Qed.

(** X9: only a recharge creates a commission.  A create or use request leaves
    the commission table unchanged; a recharge request leaves every existing
    commission unchanged and adds at most one, pending and without charge
    reference, payment method or payment date. *)
Theorem only_a_recharge_creates_a_commission qr policy r w :
  (exists suffix,
      commissions (snd (handleRequest qr policy r w))
      = (commissions w ++ suffix)%list
      /\ (length suffix <= 1)%nat /\ Forall freshCommission suffix)
  /\ match r with
     | Recharge _ _ => True
     | _ => commissions (snd (handleRequest qr policy r w)) = commissions w
     end.
Proof.
  assert (Hcreate : forall now nanoid data,
             leaves commissions (handleRequest qr policy (CreateGiftCard now nanoid data)))
    by (intros; unfold_services; frame).
  assert (Huse : forall now data,
             leaves commissions (handleRequest qr policy (Use now data)))
    by (intros; unfold_services; frame).
  split.
  - revert w. change (appendsOne commissions freshCommission (handleRequest qr policy r)).
    destruct r as [now nanoid data|now data|now data];
      [apply appendsOne_leaves, Hcreate | | apply appendsOne_leaves, Huse].
    cbn [handleRequest].
    apply appendsOne_bind_l; [unfold validateUsing; frame|]. intros _.
    apply appendsOne_bind_r; [|intros; apply leaves_ret].
    unfold RechargeGiftCardService_execute.
    apply appendsOne_bind_l; [apply leaves_get|]. intros loaded.
    apply appendsOne_bind_l; [unfold validateGiftCard; frame|]. intros giftCard.
    apply appendsOne_bind_l; [unfold transactionService_create; frame|]. intros t.
    apply appendsOne_bind_l; [unfold giftCardRepository_update; frame|]. intros _.
    destruct (findRow (franchisees loaded) (GiftCard.franchiseeId giftCard));
      [|apply appendsOne_leaves, leaves_throw].
    apply appendsOne_bind_r; [|intros; apply leaves_ret].
    apply commissionService_create_appends. intros n. repeat split.
  - destruct r as [now nanoid data|now data|now data];
      [apply Hcreate | exact Logic.I | apply Huse].
Qed.

(** ** Customer registration, first run *)

Lemma updateRow_None_or_Some {A} (f : A -> A) id rows :
  updateRow f id rows = None
  \/ exists i x, id = S i /\ rows !! i = Some x /\ updateRow f id rows = Some (alter f i rows).
Proof.
  destruct (updateRow f id rows) as [rows'|] eqn:Hu; [right|left; reflexivity].
  apply updateRow_Some in Hu as [i [x [-> [Hx ->]]]]. eauto.
Qed.

Lemma establishmentRepository_update_Throw id v w e w' :
  establishmentRepository_update id v w = (Throw e, w') ->
  exists script, w' = with_faults script w.
Proof.
  unfold establishmentRepository_update, bind, get.
  destruct (attempt_cases "establishments update" w)
    as [[_ ->]|[[rest [_ ->]]|[rest [_ ->]]]]; cbn;
    try destruct (updateRow _ id (establishments w)); cbn; intros [= _ <-];
    eauto; exists (faults w); symmetry; apply with_faults_same.
Qed.

Lemma commissionRepository_update_Throw id updates w e w' :
  commissionRepository_update id updates w = (Throw e, w') ->
  exists script, w' = with_faults script w.
Proof.
  unfold commissionRepository_update, bind, get.
  destruct (attempt_cases "commissions update" w)
    as [[_ ->]|[[rest [_ ->]]|[rest [_ ->]]]]; cbn;
    try destruct (updateRow _ id (commissions w)); cbn; intros [= _ <-];
    eauto; exists (faults w); symmetry; apply with_faults_same.
Qed.

Lemma webhookRepository_update_Throw id now w e w' :
  webhookRepository_update id now w = (Throw e, w') ->
  exists script, w' = with_faults script w.
Proof.
  unfold webhookRepository_update, bind, get.
  destruct (attempt_cases "payment_webhooks update" w)
    as [[_ ->]|[[rest [_ ->]]|[rest [_ ->]]]]; cbn;
    try destruct (updateRow _ id (webhooks w)); cbn; intros [= _ <-];
    eauto; exists (faults w); symmetry; apply with_faults_same.
Qed.

Lemma asaasClient_createCustomer_cases data w :
  (exists e script, asaasClient_createCustomer data w = (Throw e, with_faults script w))
  \/ (exists script,
        asaasClient_createCustomer data w
        = (Ok ("cus_" ++ show (nextId (asaasCustomers w))),
           with_asaasCustomers (asaasCustomers w ++ [data]) (with_faults script w))).
Proof.
  unfold asaasClient_createCustomer, bind, get.
  destruct (attempt_cases "asaas createCustomer" w)
    as [[_ ->]|[[rest [_ ->]]|[rest [_ ->]]]]; cbn; eauto.
Qed.

Lemma asaasClient_createCharge_cases data w :
  (exists e script, asaasClient_createCharge data w = (Throw e, with_faults script w))
  \/ (exists script,
        asaasClient_createCharge data w
        = (Ok (mkCharge ("pay_" ++ show (nextId (asaasCharges w))) data),
           with_asaasCharges (asaasCharges w ++ [data]) (with_faults script w))).
Proof.
  unfold asaasClient_createCharge, bind, get.
  destruct (attempt_cases "asaas createCharge" w)
    as [[_ ->]|[[rest [_ ->]]|[rest [_ ->]]]]; cbn; eauto.
Qed.

(** The first registration of an establishment, by outcome. *)
Lemma first_registration establishment w :
  truthy (Establishment.asaasCustomerId establishment) = false ->
  match CreateCustomerService_execute establishment w with
  | (Ok customerId, w') =>
      asaasCustomers w' = (asaasCustomers w ++ [customerDataOf establishment])%list
      /\ asaasCharges w' = asaasCharges w
      /\ commissions w' = commissions w
      /\ exists i stored,
           Establishment.id establishment = S i
           /\ establishments w !! i = Some stored
           /\ establishments w'
              = alter (Establishment.setAsaasCustomerId customerId) i (establishments w)
  | (Throw _, w') =>
      establishments w' = establishments w
      /\ asaasCharges w' = asaasCharges w
      /\ commissions w' = commissions w
      /\ (asaasCustomers w' = asaasCustomers w
          \/ asaasCustomers w'
             = (asaasCustomers w ++ [customerDataOf establishment])%list)
  end.
Proof.
  intros Ht. unfold CreateCustomerService_execute. rewrite Ht.
  fold (customerDataOf establishment). unfold bind.
  destruct (asaasClient_createCustomer_cases (customerDataOf establishment) w)
    as [[e [s ->]]|[s ->]]; [cbn; auto|].
  destruct (establishmentRepository_update (Establishment.id establishment) _ _)
    as [[u|e] w2] eqn:Hu.
  - apply establishmentRepository_update_Ok in Hu as [s2 [i [x [Hid [Hx ->]]]]].
    cbn. repeat split. exists i, x. auto.
  - apply establishmentRepository_update_Throw in Hu as [s2 ->]. cbn. auto.
Qed.

(** X10: registering an establishment that has no customer id sends exactly
    one customer to the gateway, built from the establishment (name, user
    e-mail and phone, CNPJ as cpfCnpj, neighbourhood as province, zip code
    as postalCode), and stores the returned id on the establishment's row.
    When it throws, the establishment table is unchanged, although the
    customer may already exist at the gateway. *)
Theorem first_registration_creates_one_customer establishment w :
  truthy (Establishment.asaasCustomerId establishment) = false ->
  let run := CreateCustomerService_execute establishment w in
  match fst run with
  | Ok customerId =>
      asaasCustomers (snd run)
      = (asaasCustomers w ++ [customerDataOf establishment])%list
      /\ cdCpfCnpj (customerDataOf establishment) = Establishment.cnpj establishment
      /\ cdProvince (customerDataOf establishment)
         = Establishment.neighborhood (Establishment.address establishment)
      /\ cdPostalCode (customerDataOf establishment)
         = Establishment.zipCode (Establishment.address establishment)
      /\ exists stored,
           findRow (establishments w) (Establishment.id establishment) = Some stored
           /\ findRow (establishments (snd run)) (Establishment.id establishment)
              = Some (Establishment.setAsaasCustomerId customerId stored)
  | Throw _ =>
      establishments (snd run) = establishments w
      /\ (asaasCustomers (snd run) = asaasCustomers w
          \/ asaasCustomers (snd run)
             = (asaasCustomers w ++ [customerDataOf establishment])%list)
  end.
Proof.
  intros Ht. cbv zeta. pose proof (first_registration establishment w Ht) as H.
  destruct (CreateCustomerService_execute establishment w) as [[cid|e] w']; cbn.
  - destruct H as (Hc & _ & _ & i & stored & Hid & Hi & He).
    repeat split; [exact Hc|]. exists stored. rewrite Hid, He.
    split; [exact Hi | apply findRow_alter, Hi].
  - destruct H as (He & _ & _ & Hc). auto.
Qed.

Lemma first_registration_witness :
  truthy (Establishment.asaasCustomerId (demoEstablishment None)) = false
  /\ let run := CreateCustomerService_execute (demoEstablishment None)
                  (demoWorld 5 [false; true]) in
     succeeded (fst run) = false
     /\ establishments (snd run) = establishments (demoWorld 5 [false; true])
     /\ length (asaasCustomers (snd run)) = 1%nat.
Proof.
  split; [reflexivity|].
  pose proof (first_registration_creates_one_customer (demoEstablishment None)
                (demoWorld 5 [false; true]) eq_refl) as H.
  cbv zeta in *. split; [reflexivity|].
  change (fst (CreateCustomerService_execute (demoEstablishment None)
                 (demoWorld 5 [false; true])))
    with (@Throw string (Error "establishments update")) in H.
  destruct H as [He _]. split; [exact He | reflexivity].
Defined.

(** X11: the check for an existing customer reads the establishment object
    it is handed, not the stored row.  Run twice on the same object without
    a customer id, the service registers the establishment twice at the
    gateway, and the row ends up with the id of the second registration. *)
Theorem stale_establishment_is_registered_twice establishment w c1 w1 c2 w2 :
  truthy (Establishment.asaasCustomerId establishment) = false ->
  CreateCustomerService_execute establishment w = (Ok c1, w1) ->
  CreateCustomerService_execute establishment w1 = (Ok c2, w2) ->
  asaasCustomers w2
  = (asaasCustomers w ++ [customerDataOf establishment; customerDataOf establishment])%list
  /\ exists stored,
       findRow (establishments w2) (Establishment.id establishment) = Some stored
       /\ Establishment.asaasCustomerId stored = Some c2.
Proof.
  intros Ht H1 H2.
  pose proof (first_registration establishment w Ht) as F1. rewrite H1 in F1.
  pose proof (first_registration establishment w1 Ht) as F2. rewrite H2 in F2.
  destruct F1 as (Hc1 & _ & _ & _).
  destruct F2 as (Hc2 & _ & _ & i & stored & Hid & Hi & He).
  split.
  - rewrite Hc2, Hc1, <- app_assoc. reflexivity.
  - eexists. rewrite Hid, He. split; [apply findRow_alter, Hi | reflexivity].
Qed.

Lemma stale_establishment_witness :
  length (asaasCustomers
            (snd (CreateCustomerService_execute (demoEstablishment None)
                    (snd (CreateCustomerService_execute (demoEstablishment None)
                            (demoWorld 5 []))))))
  = 2%nat.
Proof.
  pose proof (stale_establishment_is_registered_twice (demoEstablishment None)
                (demoWorld 5 []) "cus_1"
                (snd (CreateCustomerService_execute (demoEstablishment None)
                        (demoWorld 5 [])))
                "cus_2"
                (snd (CreateCustomerService_execute (demoEstablishment None)
                        (snd (CreateCustomerService_execute (demoEstablishment None)
                                (demoWorld 5 [])))))
                eq_refl eq_refl eq_refl) as [H _].
  rewrite H. reflexivity.
Defined.

(** ** Charging a commission *)

(** X12: for a method name that is not inherited from [Object.prototype],
    the billing type is BOLETO for ticket, CREDIT_CARD for credit_card and
    PIX for everything else, the empty string included. *)
Theorem billing_type_of_plain_method method :
  existsb (String.eqb method) Object_prototype = false ->
  mapPaymentMethod method
  = JsString (if String.eqb method "ticket" then "BOLETO"
              else if String.eqb method "credit_card" then "CREDIT_CARD"
              else "PIX").
Proof.
  intros Hproto.
  destruct (String.eqb_spec method "ticket") as [->|H1]; [reflexivity|].
  destruct (String.eqb_spec method "credit_card") as [->|H3]; [reflexivity|].
  destruct (String.eqb_spec method "pix") as [->|H2]; [reflexivity|].
  apply unknown_method_falls_back_to_pix; assumption.
Qed.

Lemma billing_type_of_plain_method_witness :
  mapPaymentMethod "boleto" = JsString "PIX" /\ mapPaymentMethod "" = JsString "PIX".
Proof.
  split; [apply (billing_type_of_plain_method "boleto") |
          apply (billing_type_of_plain_method "")]; reflexivity.
Defined.

Lemma bind_cases {A B} (m : M A) (k : A -> M B) w :
  (exists e w1, m w = (Throw e, w1) /\ bind m k w = (Throw e, w1))
  \/ (exists a w1, m w = (Ok a, w1) /\ bind m k w = k a w1).
Proof.
  unfold bind. destruct (m w) as [[a|e] w1]; [right|left]; eauto.
Qed.

Lemma CreateCustomerService_leaves_asaasCharges e :
  leaves asaasCharges (CreateCustomerService_execute e).
Proof.
  unfold CreateCustomerService_execute, asaasClient_createCustomer,
    establishmentRepository_update. cbv zeta. frame.
Qed.

(** What a successful charge request sends and writes. *)
Lemma charge_Ok format data w charge w' :
  CreateCommissionChargeService_execute format data w = (Ok charge, w') ->
  exists customerId w1 i stored,
    ensureCustomer (cc_establishment data) w = (Ok customerId, w1)
    /\ chargeData charge = chargeDataOf format customerId data
    /\ asaasCharges w' = (asaasCharges w ++ [chargeData charge])%list
    /\ Commission.id (cc_commission data) = S i
    /\ commissions w !! i = Some stored
    /\ commissions w'
       = alter (Commission.merge (chargedPatch charge (cc_paymentMethod data))) i
               (commissions w).
Proof.
  unfold CreateCommissionChargeService_execute. cbv zeta.
  fold (chargeDataOf format). intros H.
  apply bind_Ok in H as [customerId [w1 [Hc H]]].
  fold (chargeDataOf format customerId data) in H.
  pose proof (CreateCustomerService_leaves_asaasCharges (cc_establishment data) w) as Hg.
  pose proof (CreateCustomerService_leaves_commissions (cc_establishment data) w) as Hk.
  unfold ensureCustomer in Hc. rewrite Hc in Hg, Hk. cbn in Hg, Hk.
  apply bind_Ok in H as [ch [w2 [Hch H]]].
  destruct (asaasClient_createCharge_cases (chargeDataOf format customerId data) w1)
    as [[e [s Hx]]|[s Hx]]; rewrite Hx in Hch; [discriminate|].
  injection Hch as <- <-.
  apply bind_Ok in H as [u [w3 [Hu H]]]. injection H as <- <-.
  apply commissionRepository_update_Ok in Hu as [s2 [i [stored [Hid [Hi ->]]]]].
  cbn in Hi. exists customerId, w1, i, stored. cbn.
  rewrite Hg, <- Hk. repeat split; auto.
Qed.

(** What a charge request that throws leaves behind. *)
Lemma charge_Throw format data w e w' :
  CreateCommissionChargeService_execute format data w = (Throw e, w') ->
  commissions w' = commissions w
  /\ (length (asaasCharges w') <= S (length (asaasCharges w)))%nat.
Proof.
  unfold CreateCommissionChargeService_execute. cbv zeta. intros H.
  pose proof (CreateCustomerService_leaves_asaasCharges (cc_establishment data) w) as Hg.
  pose proof (CreateCustomerService_leaves_commissions (cc_establishment data) w) as Hk.
  unfold ensureCustomer in H.
  destruct (bind_cases (CreateCustomerService_execute (cc_establishment data))
              (fun customerId =>
                 let! charge := asaasClient_createCharge
                                  (chargeDataOf format customerId data) in
                 do! commissionRepository_update (Commission.id (cc_commission data))
                       (chargedPatch charge (cc_paymentMethod data)) in
                 ret charge) w)
    as [[x [w1 [Hm Hb]]]|[customerId [w1 [Hm Hb]]]];
    unfold chargeDataOf, chargedPatch in Hb; cbn in Hb; rewrite Hb in H;
    rewrite Hm in Hg, Hk; cbn in Hg, Hk.
  - injection H as _ <-. rewrite Hg, Hk. split; [reflexivity | lia].
  - unfold bind in H.
    destruct (asaasClient_createCharge_cases (chargeDataOf format customerId data) w1)
      as [[x [s Hx]]|[s Hx]]; unfold chargeDataOf in Hx; cbn in Hx; rewrite Hx in H.
    + injection H as _ <-. cbn. rewrite Hg, Hk. split; [reflexivity | lia].
    + destruct (commissionRepository_update _ _ _) as [[u|x] w3] eqn:Hu;
        [discriminate|].
      injection H as _ <-.
      apply commissionRepository_update_Throw in Hu as [s2 ->]. cbn.
      rewrite Hg, Hk, length_app. cbn. split; [reflexivity | lia].
Qed.

(** X13: a charge request that returns has sent exactly one charge to the
    gateway: for the commission's amount, tagged [commission_<id>], with the
    mapped billing type, and with card details only when the method is
    credit_card.  The commission's row then carries the gateway's charge id,
    the method and the status charged; its amount, rate and transaction are
    untouched. *)
Theorem successful_charge_request format data w charge w' :
  CreateCommissionChargeService_execute format data w = (Ok charge, w') ->
  asaasCharges w' = (asaasCharges w ++ [chargeData charge])%list
  /\ value (chargeData charge) = Commission.amount (cc_commission data)
  /\ externalReference (chargeData charge)
     = "commission_" ++ show (Commission.id (cc_commission data))
  /\ billingType (chargeData charge) = mapPaymentMethod (cc_paymentMethod data)
  /\ (cc_paymentMethod data <> "credit_card" -> creditCard (chargeData charge) = None)
  /\ exists stored stored',
       findRow (commissions w) (Commission.id (cc_commission data)) = Some stored
       /\ findRow (commissions w') (Commission.id (cc_commission data)) = Some stored'
       /\ Commission.asaasChargeId stored' = Some (chargeId charge)
       /\ Commission.paymentMethod stored' = Some (cc_paymentMethod data)
       /\ Commission.status stored' = Commission.charged
       /\ Commission.amount stored' = Commission.amount stored
       /\ Commission.rate stored' = Commission.rate stored
       /\ Commission.transactionId stored' = Commission.transactionId stored.
Proof.
  intros H. apply charge_Ok in H
    as (customerId & w1 & i & stored & _ & Hd & Hg & Hid & Hi & Hc).
  rewrite Hd at 2 3 4 5. cbn. repeat split; auto.
  - intros Hne. destruct (String.eqb_spec (cc_paymentMethod data) "credit_card");
      [contradiction | reflexivity].
  - exists stored. eexists. rewrite Hid, Hc, (findRow_alter _ _ _ _ Hi).
    repeat split. exact Hi.
Qed.

Lemma successful_charge_request_witness :
  let run := CreateCommissionChargeService_execute demoFormat
               (demoChargeRequest Commission.pending "pix")
               (settlementWorld Commission.pending []) in
  exists charge, fst run = Ok charge
                 /\ asaasCharges (snd run) = [chargeData charge]
                 /\ externalReference (chargeData charge) = "commission_1".
Proof.
  cbv zeta. eexists. split; [reflexivity|].
  destruct (successful_charge_request demoFormat
              (demoChargeRequest Commission.pending "pix")
              (settlementWorld Commission.pending [])
              (mkCharge "pay_1"
                 (chargeDataOf demoFormat "cus_1"
                    (demoChargeRequest Commission.pending "pix")))
              (snd (CreateCommissionChargeService_execute demoFormat
                      (demoChargeRequest Commission.pending "pix")
                      (settlementWorld Commission.pending []))) eq_refl)
    as (Hg & _ & Hr & _).
  split; [exact Hg | exact Hr].
Defined.

(** X14: a charge request that throws, at the customer registration, at the
    gateway or at the final update, leaves every commission exactly as it
    was (the service itself never writes the status failed) and has sent at
    most one charge to the gateway. *)
Theorem failed_charge_request_leaves_commissions format data w e w' :
  CreateCommissionChargeService_execute format data w = (Throw e, w') ->
  commissions w' = commissions w
  /\ (length (asaasCharges w') <= S (length (asaasCharges w)))%nat.
Proof. apply charge_Throw. Qed.

Lemma failed_charge_request_witness :
  commissions (snd (CreateCommissionChargeService_execute demoFormat
                      (demoChargeRequest Commission.pending "pix")
                      (settlementWorld Commission.pending [true])))
  = [demoCommission Commission.pending].
Proof.
  apply (failed_charge_request_leaves_commissions demoFormat
           (demoChargeRequest Commission.pending "pix")
           (settlementWorld Commission.pending [true])
           (Error "asaas createCharge")).
  reflexivity.
Defined.

(** X15: a charge request never looks for a charge made earlier.  Two
    requests for the same commission that both return send two charges with
    the same external reference and value to the gateway, and the commission
    keeps the id of the second. *)
Theorem repeated_charge_request_charges_again format data w ch1 w1 ch2 w2 :
  CreateCommissionChargeService_execute format data w = (Ok ch1, w1) ->
  CreateCommissionChargeService_execute format data w1 = (Ok ch2, w2) ->
  asaasCharges w2 = (asaasCharges w ++ [chargeData ch1; chargeData ch2])%list
  /\ externalReference (chargeData ch1) = externalReference (chargeData ch2)
  /\ value (chargeData ch1) = value (chargeData ch2)
  /\ exists stored,
       findRow (commissions w2) (Commission.id (cc_commission data)) = Some stored
       /\ Commission.asaasChargeId stored = Some (chargeId ch2).
Proof.
  intros H1 H2.
  apply charge_Ok in H1 as (c1 & x1 & i1 & s1 & _ & Hd1 & Hg1 & _ & _ & _).
  apply charge_Ok in H2 as (c2 & x2 & i2 & s2 & _ & Hd2 & Hg2 & Hid & Hi & Hc).
  split; [rewrite Hg2, Hg1, <- app_assoc; reflexivity|].
  rewrite Hd1, Hd2. cbn. repeat split.
  eexists. rewrite Hid, Hc, (findRow_alter _ _ _ _ Hi). split; reflexivity.
Qed.

Lemma repeated_charge_request_witness :
  length (asaasCharges
            (snd (CreateCommissionChargeService_execute demoFormat
                    (demoChargeRequest Commission.pending "pix")
                    (snd (CreateCommissionChargeService_execute demoFormat
                            (demoChargeRequest Commission.pending "pix")
                            (settlementWorld Commission.pending []))))))
  = 2%nat.
Proof.
  pose proof (repeated_charge_request_charges_again demoFormat
                (demoChargeRequest Commission.pending "pix")
                (settlementWorld Commission.pending [])
                (mkCharge "pay_1"
                   (chargeDataOf demoFormat "cus_1"
                      (demoChargeRequest Commission.pending "pix")))
                (snd (CreateCommissionChargeService_execute demoFormat
                        (demoChargeRequest Commission.pending "pix")
                        (settlementWorld Commission.pending [])))
                (mkCharge "pay_2"
                   (chargeDataOf demoFormat "cus_1"
                      (demoChargeRequest Commission.pending "pix")))
                (snd (CreateCommissionChargeService_execute demoFormat
                        (demoChargeRequest Commission.pending "pix")
                        (snd (CreateCommissionChargeService_execute demoFormat
                                (demoChargeRequest Commission.pending "pix")
                                (settlementWorld Commission.pending [])))))
                eq_refl eq_refl) as [H _].
  rewrite H. reflexivity.
Defined.

Lemma show_injective a b : show a = show b -> a = b.
Proof.
  unfold show. intros H.
  apply (f_equal NilEmpty.uint_of_string) in H.
  rewrite !NilEmpty.usu in H. injection H as H.
  apply (f_equal Nat.of_uint) in H.
  rewrite !DecimalNat.Unsigned.of_to in H. exact H.
Qed.

(** X16: the external reference a charge is tagged with identifies its
    commission: the references and descriptions of two charge requests are
    equal only if the two commissions have the same id. *)
Theorem external_reference_identifies_commission format c1 c2 d1 d2 :
  externalReference (chargeDataOf format c1 d1)
  = externalReference (chargeDataOf format c2 d2)
  \/ chargeDescription (chargeDataOf format c1 d1)
     = chargeDescription (chargeDataOf format c2 d2) ->
  Commission.id (cc_commission d1) = Commission.id (cc_commission d2).
Proof.
  cbn. intros [H|H]; apply show_injective.
  - injection H as H. exact H.
  - injection H as H. exact H.
Qed.

Lemma external_reference_witness :
  Commission.id (cc_commission (demoChargeRequest Commission.pending "pix"))
  = Commission.id (cc_commission (demoChargeRequest Commission.failed "ticket")).
Proof.
  apply (external_reference_identifies_commission demoFormat "cus_1" "cus_2").
  left. reflexivity.
Defined.

(** ** The charge job *)

Lemma findWithRelations_Some w id c e :
  findWithRelations w id = Some (c, e) -> findRow (commissions w) id = Some c.
Proof.
  unfold findWithRelations. destruct (findRow (commissions w) id) as [x|]; [|discriminate].
  destruct (findRow (establishments w) (Commission.establishmentId x)); [|discriminate].
  intros [= -> _]. reflexivity.
Qed.

Lemma keyed_findRow {A} (key : A -> nat) rows id x :
  keyed key rows -> findRow rows id = Some x -> key x = id.
Proof.
  intros Hk Hx. apply findRow_Some in Hx as [i [-> Hi]]. exact (Hk i x Hi).
Qed.

(** The catch block of the job, run after the body threw in [w1]. *)
Lemma charge_job_catch id error w1 :
  exists e w',
    bind (commissionRepository_update id failedPatch) (fun _ => @throw unit error) w1
    = (Throw e, w')
    /\ (statusOf w' id = Some Commission.failed /\ e = error
        \/ commissions w' = commissions w1).
Proof.
  unfold bind.
  destruct (commissionRepository_update id failedPatch w1) as [[u|x] w2] eqn:Hu.
  - apply commissionRepository_update_Ok in Hu as [s [i [stored [-> [Hi ->]]]]].
    exists error. eexists. split; [reflexivity|]. left. split; [|reflexivity].
    unfold statusOf. cbn [commissions with_commissions].
    rewrite (findRow_alter _ _ _ _ Hi). reflexivity.
  - apply commissionRepository_update_Throw in Hu as [s ->].
    exists x. eexists. split; [reflexivity|]. right. reflexivity.
Qed.

(** X17: with commission ids equal to their row numbers, a charge job that
    returns has left its commission charged; a job that throws has left it
    failed, rethrowing the error of the charge attempt, unless the write of
    the failed status was itself rejected, in which case the commission
    table is unchanged. *)
Theorem charge_job_outcomes format job w :
  keyed Commission.id (commissions w) ->
  match CommissionChargeJob_handle format job w with
  | (Ok _, w') => statusOf w' (job_commissionId job) = Some Commission.charged
  | (Throw _, w') =>
      statusOf w' (job_commissionId job) = Some Commission.failed
      \/ commissions w' = commissions w
  end.
Proof.
  intros Hkeyed. unfold CommissionChargeJob_handle. cbv zeta.
  unfold tryCatch, bind at 1, get. fold failedPatch.
  destruct (findWithRelations w (job_commissionId job)) as [[c e]|] eqn:Hfind.
  - apply findWithRelations_Some in Hfind.
    pose proof (keyed_findRow _ _ _ _ Hkeyed Hfind) as Hid.
    unfold bind at 1.
    destruct (CreateCommissionChargeService_execute format _ w) as [[ch|x] w1] eqn:Hx.
    + cbn. apply charge_Ok in Hx as (_ & _ & i & stored & _ & _ & _ & Hi & Hs & Hc).
      cbn in Hi. unfold statusOf. rewrite <- Hid, Hi, Hc, (findRow_alter _ _ _ _ Hs).
      reflexivity.
    + apply charge_Throw in Hx as [Hc _].
      destruct (charge_job_catch (job_commissionId job) x w1)
        as [e' [w' [-> [[Hs _]|Hsame]]]]; [left; exact Hs | right; congruence].
  - cbn.
    destruct (charge_job_catch (job_commissionId job)
                (Error ("Commission " ++ show (job_commissionId job) ++ " not found")) w)
      as [e' [w' [-> [[Hs _]|Hsame]]]]; [left; exact Hs | right; exact Hsame].
Qed.

Lemma charge_job_outcomes_witness :
  statusOf (snd (CommissionChargeJob_handle demoFormat
                   (mkChargeJobData 1 "pix" 15 None)
                   (settlementWorld Commission.pending [])))
           1
  = Some Commission.charged.
Proof.
  apply (charge_job_outcomes demoFormat (mkChargeJobData 1 "pix" 15 None)
           (settlementWorld Commission.pending [])).
  intros [|i] x Hx; [injection Hx as <-; reflexivity | discriminate Hx].
Defined.

(** X18: a charge job for a commission id that does not exist always throws
    and reaches neither the gateway nor any table. *)
Theorem charge_job_for_missing_commission format job w :
  findRow (commissions w) (job_commissionId job) = None ->
  exists e script,
    CommissionChargeJob_handle format job w = (Throw e, with_faults script w).
Proof.
  intros Hnone. unfold CommissionChargeJob_handle. cbv zeta.
  unfold tryCatch, bind at 1, get, findWithRelations. rewrite Hnone. cbn.
  unfold commissionRepository_update, bind, get.
  destruct (attempt_cases "commissions update" w)
    as [[_ ->]|[[rest [_ ->]]|[rest [_ ->]]]]; cbn;
    try (unfold updateRow; cbn [commissions with_faults]; rewrite Hnone; cbn); eauto.
  exists (Error "commissions: row not found"), (faults w).
  rewrite with_faults_same. reflexivity.
Qed.

Lemma charge_job_for_missing_commission_witness :
  exists e script,
    CommissionChargeJob_handle demoFormat (mkChargeJobData 7 "pix" 15 None)
      (settlementWorld Commission.pending [])
    = (Throw e, with_faults script (settlementWorld Commission.pending [])).
Proof.
  apply (charge_job_for_missing_commission demoFormat
           (mkChargeJobData 7 "pix" 15 None)
           (settlementWorld Commission.pending [])).
  reflexivity.
Defined.

(** ** Webhook events *)

Lemma unhandled_event event :
  isOneOf event handledEvents = false ->
  isOneOf event ["PAYMENT_CONFIRMED"; "PAYMENT_RECEIVED"] = false
  /\ isOneOf event ["PAYMENT_OVERDUE"] = false
  /\ isOneOf event ["PAYMENT_DELETED"; "PAYMENT_REFUNDED"] = false.
Proof.
  unfold isOneOf, handledEvents. cbn. intros H.
  repeat (apply orb_false_elim in H as [? H]). subst.
  repeat match goal with E : String.eqb _ _ = false |- _ => rewrite E; clear E end.
  auto.
Qed.

(** X19: an event whose kind is none of PAYMENT_CONFIRMED, PAYMENT_RECEIVED,
    PAYMENT_OVERDUE, PAYMENT_DELETED and PAYMENT_REFUNDED has no effect at
    all: the service returns and the world is unchanged.  This is the case
    for fifteen of the twenty entries of [AsaasWebhookEvent]. *)
Theorem unhandled_events_are_ignored :
  (forall data w,
      isOneOf (event data) handledEvents = false ->
      ProcessWebhookService_execute data w = (Ok tt, w))
  /\ length (List.filter (fun kind => negb (isOneOf kind handledEvents))
                         AsaasWebhookEvent) = 15%nat.
Proof.
  split; [|reflexivity].
  intros data w H. apply unhandled_event in H as (H1 & H2 & H3).
  unfold ProcessWebhookService_execute, bind. rewrite findCommissionByPayment_run.
  destruct (List.find _ (commissions w)); [|reflexivity].
  rewrite H1, H2, H3. reflexivity.
Qed.

Lemma unhandled_events_witness :
  ProcessWebhookService_execute (mkWebhookData "PAYMENT_RESTORED" demoPayment)
                                (settlementWorld Commission.charged [true])
  = (Ok tt, settlementWorld Commission.charged [true]).
Proof.
  apply (proj1 unhandled_events_are_ignored). reflexivity.
Defined.

(** X20: an event for a payment that matches no commission is dropped: the
    service returns without error and without any effect, whatever the
    event kind. *)
Theorem event_for_unknown_payment_is_dropped data w :
  List.find (matchesPayment (payment data)) (commissions w) = None ->
  ProcessWebhookService_execute data w = (Ok tt, w).
Proof.
  intros H. unfold ProcessWebhookService_execute, bind.
  rewrite findCommissionByPayment_run, H. reflexivity.
Qed.

Lemma event_for_unknown_payment_witness :
  ProcessWebhookService_execute
    (mkWebhookData "PAYMENT_CONFIRMED"
                   (mkPayment "pay_9" "commission_9" (Some "2025-01-12") None))
    (settlementWorld Commission.charged [])
  = (Ok tt, settlementWorld Commission.charged []).
Proof.
  apply event_for_unknown_payment_is_dropped. reflexivity.
Defined.

Lemma notificationService_send_cases n w :
  (exists e script, notificationService_send n w = (Throw e, with_faults script w))
  \/ (exists script,
        notificationService_send n w
        = (Ok tt, with_notifications (notifications w ++ [n]) (with_faults script w))).
Proof.
  unfold notificationService_send, bind, get.
  destruct (attempt_cases "notification" w)
    as [[_ ->]|[[rest [_ ->]]|[rest [_ ->]]]]; cbn; eauto.
Qed.

(** X21: a PAYMENT_OVERDUE event never changes a commission.  When the
    service returns, exactly one overdue notification for the matched
    commission has been sent; when it throws, none has. *)
Theorem overdue_event_only_notifies data w c :
  event data = "PAYMENT_OVERDUE" ->
  List.find (matchesPayment (payment data)) (commissions w) = Some c ->
  let run := ProcessWebhookService_execute data w in
  commissions (snd run) = commissions w
  /\ match fst run with
     | Ok _ => notifications (snd run)
               = (notifications w ++ [OverdueNotification (Commission.id c)])%list
     | Throw _ => notifications (snd run) = notifications w
     end.
Proof.
  intros Hev Hfind. cbv zeta.
  unfold ProcessWebhookService_execute, bind.
  rewrite findCommissionByPayment_run, Hfind, Hev. cbn [isOneOf existsb String.eqb].
  cbn. unfold handlePaymentOverdue.
  destruct (notificationService_send_cases (OverdueNotification (Commission.id c)) w)
    as [[e [s ->]]|[s ->]]; cbn; auto.
Qed.

Lemma overdue_event_witness :
  let run := ProcessWebhookService_execute
               (mkWebhookData "PAYMENT_OVERDUE" demoPayment)
               (settlementWorld Commission.charged []) in
  statusOf (snd run) 1 = Some Commission.charged
  /\ notifications (snd run) = [OverdueNotification 1].
Proof.
  pose proof (overdue_event_only_notifies
                (mkWebhookData "PAYMENT_OVERDUE" demoPayment)
                (settlementWorld Commission.charged [])
                (demoCommission Commission.charged) eq_refl eq_refl) as [Hc Hn].
  cbv zeta. split; [unfold statusOf; rewrite Hc; reflexivity | exact Hn].
Defined.

(** What a successful [handlePaymentSuccess] sends. *)
Lemma handlePaymentSuccess_notifies c payment w w' :
  handlePaymentSuccess c payment w = (Ok tt, w') ->
  notifications w'
  = (notifications w ++ [PaymentConfirmation (Commission.id c)])%list.
Proof.
  unfold handlePaymentSuccess. intros H.
  apply bind_Ok in H as [u [w1 [Hu H]]].
  apply commissionRepository_update_Ok in Hu as [s [i [stored [_ [_ ->]]]]].
  destruct (notificationService_send_cases (PaymentConfirmation (Commission.id c))
              (with_commissions
                 (alter (Commission.merge (paidPatch payment)) i (commissions w))
                 (with_faults s w)))
    as [[e [s2 Hx]]|[s2 Hx]]; rewrite Hx in H; [discriminate|].
  injection H as <-. reflexivity.
Qed.

(** X22: every application of a payment confirmation that returns sends one
    confirmation notification, so a replayed event, which leaves the
    commission as it is, notifies the franchisee a second time. *)
Theorem replayed_confirmation_notifies_again data w c w1 w2 :
  isConfirmation data = true ->
  List.find (matchesPayment (payment data)) (commissions w) = Some c ->
  ProcessWebhookService_execute data w = (Ok tt, w1) ->
  ProcessWebhookService_execute data w1 = (Ok tt, w2) ->
  notifications w2
  = (notifications w ++ [PaymentConfirmation (Commission.id c);
                         PaymentConfirmation (Commission.id c)])%list
  /\ commissions w2 = commissions w1.
Proof.
  intros Hconf Hfind H1 H2. unfold isConfirmation in Hconf.
  unfold ProcessWebhookService_execute in H1, H2. rewrite Hconf in H1, H2.
  apply bind_Ok in H1 as [f1 [x1 [Hf1 H1]]].
  rewrite findCommissionByPayment_run in Hf1. injection Hf1 as <- <-.
  rewrite Hfind in H1.
  apply bind_Ok in H2 as [f2 [x2 [Hf2 H2]]].
  rewrite findCommissionByPayment_run in Hf2. injection Hf2 as <- <-.
  pose proof (handlePaymentSuccess_notifies _ _ _ _ H1) as Hn1.
  apply handlePaymentSuccess_Ok in H1 as [i [stored [Hid [Hi Hw1]]]].
  pose proof (find_alter_id (matchesPayment (payment data)) Commission.id
                (Commission.merge (paidPatch (payment data))) (commissions w) i
                (paidPatch_keeps_match _ _) (fun x => eq_refl)) as Hsame.
  rewrite <- Hw1, Hfind in Hsame.
  destruct (List.find (matchesPayment (payment data)) (commissions w1))
    as [c1|]; [|discriminate].
  injection Hsame as Hsame.
  pose proof (handlePaymentSuccess_notifies _ _ _ _ H2) as Hn2.
  apply handlePaymentSuccess_Ok in H2 as [j [stored2 [Hid2 [Hj Hw2]]]].
  split.
  - rewrite Hn2, Hn1, Hsame, <- app_assoc. reflexivity.
  - assert (j = i) as -> by congruence.
    rewrite Hw2, Hw1. apply alter_idempotent. intros x. apply paidPatch_idempotent.
Qed.

Lemma replayed_confirmation_witness :
  notifications
    (snd (ProcessWebhookService_execute demoConfirmation
            (snd (ProcessWebhookService_execute demoConfirmation
                    (settlementWorld Commission.charged [])))))
  = [PaymentConfirmation 1; PaymentConfirmation 1].
Proof.
  apply (replayed_confirmation_notifies_again demoConfirmation
           (settlementWorld Commission.charged [])
           (demoCommission Commission.charged)
           (snd (ProcessWebhookService_execute demoConfirmation
                   (settlementWorld Commission.charged [])))
           (snd (ProcessWebhookService_execute demoConfirmation
                   (snd (ProcessWebhookService_execute demoConfirmation
                           (settlementWorld Commission.charged []))))));
    reflexivity.
Defined.

(** ** The webhook job *)

Lemma ProcessWebhookService_leaves_webhooks data :
  leaves webhooks (ProcessWebhookService_execute data).
Proof.
  unfold ProcessWebhookService_execute.
  unfold findCommissionByPayment, handlePaymentSuccess, handlePaymentOverdue,
    handlePaymentCancellation.
  unfold commissionRepository_update, notificationService_send.
  cbv zeta. frame.
Qed.

(** X23: a webhook job for an id that does not exist, or for a webhook that
    already carries a processing time, returns at once: nothing is
    processed and the world is unchanged. *)
Theorem webhook_job_skips_missing_and_processed now webhookId w :
  findRow (webhooks w) webhookId = None
  \/ (exists h t, findRow (webhooks w) webhookId = Some h
                  /\ Webhook.processedAt h = Some t) ->
  ProcessWebhookJob_handle now webhookId w = (Ok tt, w).
Proof.
  unfold ProcessWebhookJob_handle, tryCatch, bind, get.
  intros [->|[h [t [-> Ht]]]]; [reflexivity|]. rewrite Ht. reflexivity.
Qed.

Lemma webhook_job_skips_witness :
  ProcessWebhookJob_handle 10 3 (settlementWorld Commission.charged [true])
  = (Ok tt, settlementWorld Commission.charged [true]).
Proof.
  apply webhook_job_skips_missing_and_processed. left. reflexivity.
Defined.

(** X24: a webhook is marked as processed only after its processing has
    returned.  A job that throws leaves the webhook table unchanged, so the
    webhook is still unprocessed for the retry; a job that returns on an
    unprocessed webhook has stored the processing time and kept the id and
    payload. *)
Theorem webhook_marked_processed_only_on_success now webhookId w h :
  findRow (webhooks w) webhookId = Some h ->
  Webhook.processedAt h = None ->
  match ProcessWebhookJob_handle now webhookId w with
  | (Throw _, w') => webhooks w' = webhooks w
  | (Ok _, w') =>
      findRow (webhooks w') webhookId
      = Some (Webhook.mk (Webhook.id h) (Webhook.payload h) (Some now))
  end.
Proof.
  intros Hh Hp. unfold ProcessWebhookJob_handle, tryCatch, bind at 1, get.
  rewrite Hh, Hp. unfold bind.
  pose proof (ProcessWebhookService_leaves_webhooks (Webhook.payload h) w) as Hl.
  destruct (ProcessWebhookService_execute (Webhook.payload h) w) as [[u|e] w1];
    cbn in Hl; [|cbn; exact Hl].
  destruct (webhookRepository_update webhookId now w1) as [[u'|e] w2] eqn:Hu.
  - revert Hu. unfold webhookRepository_update, bind, get.
    destruct (attempt "payment_webhooks update" w1) as [[u2|e] w3] eqn:Ha;
      [|discriminate].
    apply attempt_Ok in Ha as [s ->]. cbn.
    destruct (updateRow _ webhookId (webhooks w1)) as [rows|] eqn:Hr; [|discriminate].
    apply updateRow_Some in Hr as [i [x [-> [Hx ->]]]].
    intros Heq. injection Heq as Heq. subst w2.
    cbn [webhooks with_webhooks]. rewrite (findRow_alter _ _ _ _ Hx).
    rewrite Hl in Hx. cbn in Hh. rewrite Hh in Hx. injection Hx as <-. reflexivity.
  - apply webhookRepository_update_Throw in Hu as [s ->]. cbn. exact Hl.
Qed.

Lemma webhook_marked_processed_witness :
  findRow (webhooks (snd (ProcessWebhookJob_handle 10 1 (webhookWorld [])))) 1
  = Some (Webhook.mk 1 demoConfirmation (Some 10%nat))
  /\ webhooks (snd (ProcessWebhookJob_handle 10 1 (webhookWorld [false; true])))
     = webhooks (webhookWorld [false; true]).
Proof.
  split.
  - apply (webhook_marked_processed_only_on_success 10 1 (webhookWorld [])
             (Webhook.mk 1 demoConfirmation None) eq_refl eq_refl).
  - apply (webhook_marked_processed_only_on_success 10 1 (webhookWorld [false; true])
             (Webhook.mk 1 demoConfirmation None) eq_refl eq_refl).
Defined.

(** ** The gateway client and its configuration *)

Lemma sandbox_is_not_production : sandboxUrl <> productionUrl.
Proof. apply String.eqb_neq. reflexivity. Qed.

(** X25: the constructor of [AsaasClientService] computes [baseUrl] from
    [this.environment] before that field is assigned, so the client always
    targets the sandbox URL, whatever ASAAS_ENVIRONMENT says; the exported
    configuration picks the production URL exactly when the variable is
    production, so under a production environment the two disagree. *)
Theorem client_always_targets_sandbox env :
  AsaasClient.baseUrl (AsaasClient.new env) = Some sandboxUrl
  /\ AsaasClient.environment (AsaasClient.new env)
     = Some (AsaasConfig.environment (AsaasConfig.load env))
  /\ (AsaasConfig.baseUrl (AsaasConfig.load env) = productionUrl
      <-> Env_get env "ASAAS_ENVIRONMENT" = Some "production")
  /\ (Env_get env "ASAAS_ENVIRONMENT" = Some "production" ->
      AsaasClient.environment (AsaasClient.new env) = Some "production"
      /\ AsaasClient.baseUrl (AsaasClient.new env)
         <> Some (AsaasConfig.baseUrl (AsaasConfig.load env))).
Proof.
  split; [reflexivity|]. split; [reflexivity|]. split.
  - unfold AsaasConfig.load, Env_get. cbn [AsaasConfig.baseUrl].
    destruct (env !! "ASAAS_ENVIRONMENT") as [e|].
    + destruct (String.eqb_spec e "production") as [->|Hne].
      * split; reflexivity.
      * split; [intros H; destruct (sandbox_is_not_production H) | congruence].
    + split; intros H; [destruct (sandbox_is_not_production H) | discriminate H].
  - intros H. unfold AsaasClient.new, AsaasConfig.load, Env_get_or. cbn.
    unfold Env_get in H. rewrite H. cbn.
    split; [reflexivity|]. intros E. injection E as E.
    unfold Env_get in E. rewrite H in E. exact (sandbox_is_not_production E).
Qed.

Lemma client_always_targets_sandbox_witness :
  AsaasClient.environment (AsaasClient.new productionEnv) = Some "production"
  /\ AsaasClient.baseUrl (AsaasClient.new productionEnv)
     <> Some (AsaasConfig.baseUrl (AsaasConfig.load productionEnv)).
Proof.
  apply (proj2 (proj2 (proj2 (client_always_targets_sandbox productionEnv)))).
  reflexivity.
Defined.

(** ** Webhook signatures *)

(** X26: with a configured secret, [validateSignature] answers true exactly
    for the signature that equals the digest of the payload; a different
    signature of the same length gives false, and a signature of another
    length (an empty or truncated header, say) makes it throw instead of
    answering false.  Without a configured secret it throws. *)
Theorem signature_validation hmacSha256 env payload signature :
  match Env_get env "ASAAS_WEBHOOK_SECRET" with
  | Some secret =>
      let expected := hmacSha256 secret payload in
      let result := WebhookValidator_validateSignature hmacSha256 env payload signature in
      (result = Ok true <-> signature = expected)
      /\ (String.length signature = String.length expected ->
          signature <> expected -> result = Ok false)
      /\ (String.length signature <> String.length expected ->
          succeeded result = false)
  | None =>
      succeeded (WebhookValidator_validateSignature hmacSha256 env payload signature)
      = false
  end.
Proof.
  unfold WebhookValidator_validateSignature.
  destruct (Env_get env "ASAAS_WEBHOOK_SECRET") as [secret|]; [|reflexivity].
  cbv zeta. unfold timingSafeEqual.
  destruct (Nat.eqb_spec (String.length signature)
                         (String.length (hmacSha256 secret payload))) as [Hlen|Hlen].
  - destruct (String.eqb_spec signature (hmacSha256 secret payload)) as [Heq|Hne].
    + repeat split; auto; contradiction.
    + repeat split; auto; try contradiction. discriminate.
  - repeat split; auto; try contradiction; try discriminate.
    intros ->. contradiction.
Qed.

Lemma signature_validation_witness :
  WebhookValidator_validateSignature demoHmac productionEnv "{}" "secret:{}" = Ok true
  /\ succeeded (WebhookValidator_validateSignature demoHmac productionEnv "{}" "")
     = false.
Proof.
  pose proof (signature_validation demoHmac productionEnv "{}" "secret:{}") as H1.
  pose proof (signature_validation demoHmac productionEnv "{}" "") as H2.
  change (Env_get productionEnv "ASAAS_WEBHOOK_SECRET") with (Some "secret") in H1, H2.
  cbv zeta in H1, H2. split.
  - apply (proj1 H1). reflexivity.
  - apply (proj2 (proj2 H2)). discriminate.
Defined.

(** ** How a use can fail *)

(** X27: a use fails in one of four ways only.  The card is not found (404),
    the card policy rejects it, or the balance is insufficient (400): then
    nothing at all is written and the handler does not report the error.
    Or a write is rejected: then the card table is unchanged, at most the
    transaction row has been written, the answer is 500 and the error is
    reported. *)
Theorem how_a_use_can_fail policy now data w e w' :
  UseGiftCardService_execute policy now data w = (Throw e, w') ->
  (w' = w
   /\ (e = NotFoundException "Gift card not found"
       /\ responseStatus (HttpExceptionHandler_handle e) = 404%nat
       /\ HttpExceptionHandler_report e = false
       \/ (exists c, policy now c = Some e)
       \/ e = BadRequestException "Insufficient balance"
          /\ responseStatus (HttpExceptionHandler_handle e) = 400%nat
          /\ HttpExceptionHandler_report e = false))
  \/ (exists what, e = Error what)
     /\ giftCards w' = giftCards w
     /\ (length (transactions w') <= S (length (transactions w)))%nat
     /\ responseStatus (HttpExceptionHandler_handle e) = 500%nat
     /\ HttpExceptionHandler_report e = true.
Proof.
  unfold UseGiftCardService_execute, validateGiftCard, bind at 1 2, get.
  destruct (resolveCard w _) as [c|]; cbn.
  2:{ intros [= <- <-]. left. split; [reflexivity|]. left. repeat split. }
  destruct (policy now c) as [x|] eqn:Hp; cbn.
  { intros [= <- <-]. left. split; [reflexivity|]. right. left. eauto. }
  destruct (num_lt (GiftCard.currentBalance c) (UseData.amount data)).
  { intros [= <- <-]. left. split; [reflexivity|]. right. right. repeat split. }
  intros H. right. unfold bind in H.
  destruct (transactionService_create _ _ _ _ _ _ _ w) as [[t|x] w1] eqn:Ht.
  - apply transactionService_create_Ok in Ht as [s [_ ->]].
    destruct (giftCardRepository_update _ _ _) as [[u|x] w2] eqn:Hu; [discriminate|].
    injection H as <- <-. revert Hu.
    unfold giftCardRepository_update, bind, get.
    match goal with |- context [attempt ?l ?v] =>
      destruct (attempt_cases l v) as [[_ ->]|[[rest [_ ->]]|[rest [_ ->]]]] end; cbn;
      try destruct (updateRow _ _ (giftCards w)); cbn; intros [= <- <-]; cbn;
      (split; [eauto|]); rewrite ?length_app; cbn; repeat split; lia.
  - injection H as <- <-. revert Ht.
    unfold transactionService_create, bind, get.
    destruct (attempt_cases "transactions insert" w)
      as [[_ ->]|[[rest [_ ->]]|[rest [_ ->]]]]; cbn; intros [= <- <-]; cbn.
    split; [eauto|]. repeat split; lia.
Qed.

Lemma how_a_use_can_fail_witness :
  responseStatus
    (HttpExceptionHandler_handle (BadRequestException "Insufficient balance"))
  = 400%nat
  /\ HttpExceptionHandler_report (BadRequestException "Insufficient balance") = false.
Proof.
  destruct (how_a_use_can_fail activePolicy 0 (demoUse 200) (issued 5 150 [])
              (BadRequestException "Insufficient balance") (issued 5 150 []) eq_refl)
    as [[_ [(H & _ & _)|[[c Hc]|(_ & Hs & Hr)]]]|[[what H] _]].
  - discriminate H.
  - exfalso. unfold activePolicy in Hc.
    destruct (GiftCard.status c); try discriminate Hc.
    destruct (GiftCard.validUntil c) as [t|]; [|discriminate Hc].
    destruct (t <? 0)%nat; discriminate Hc.
  - split; assumption.
  - discriminate H.
Defined.

(** ** Client errors *)

(** X28: [report] skips exactly the [BaseException]s whose status is a 4xx;
    every other error is passed on to the framework's reporter.  An
    exception of one of the three client-error classes is answered with the
    status of its class and a body that repeats that status and the message,
    and it is never reported, whatever the optional code; the code in the
    body is the one supplied, unless it is missing or empty, in which case
    it is the code of the class. *)
Theorem client_errors_keep_status_and_skip_report :
  (forall error,
      HttpExceptionHandler_report error = false
      <-> exists message status code,
            error = BaseException message status code
            /\ (400 <= status < 500)%nat)
  /\ (forall message code,
        Forall (fun '(error, status, classCode) =>
                  HttpExceptionHandler_handle error
                  = mkResponse status
                      (toJSON message status
                         (match code with
                          | Some v => if String.eqb v "" then classCode else v
                          | None => classCode
                          end))
                  /\ HttpExceptionHandler_report error = false)
               [(newBadRequestException message code, 400%nat, "E_BAD_REQUEST");
                (newNotFoundException message code, 404%nat, "E_NOT_FOUND");
                (newUnauthorizedException message code, 401%nat, "E_UNAUTHORIZED")]).
Proof.
  split.
  - intros error. unfold HttpExceptionHandler_report. split.
    + destruct error as [m s c| | |m]; try (intros H; discriminate H).
      intros H. exists m, s, c. split; [reflexivity|].
      apply negb_false_iff, andb_true_iff in H. destruct H as [H1 H2].
      apply Nat.leb_le in H1. apply Nat.ltb_lt in H2. lia.
    + intros (m & s & c & -> & H1 & H2).
      apply negb_false_iff, andb_true_iff.
      split; [apply Nat.leb_le | apply Nat.ltb_lt]; lia.
  - intros message code.
    unfold newBadRequestException, newNotFoundException, newUnauthorizedException,
      codeOr, truthy.
    destruct code as [v|]; [destruct (String.eqb v "")|]; cbn;
      repeat constructor.
Qed.

Lemma client_errors_witness :
  HttpExceptionHandler_report (newNotFoundException "Gift card not found" (Some ""))
  = false.
Proof.
  apply (proj1 client_errors_keep_status_and_skip_report).
  exists "Gift card not found", 404%nat, "E_NOT_FOUND".
  split; [reflexivity | lia].
Defined.
